(** * omni.py: the [omnidata] loader of the HiPEAC2019 tutorial

    A shallow embedding of [tutorials/HiPEAC2019/omni.py] and the proofs of
    its windowing, masking and normalisation properties.

    Numbers.  The cells of the data file and of the arrays [read] and
    [load] build are rationals ([Q]): the integer columns embed exactly, the
    float columns are the rationals their literals denote, and the loader only
    compares and copies them.  [normalize] computes, and is embedded twice:
    over [Q], where a cell produced by a division is an [option Q] ([None] is
    a value that is not a finite number), for the properties of shapes,
    parameters and formulas; and, with [denorm], over binary64 floats (module
    [F64], the kernel's [PrimFloat]), with numpy's rounding, infinities and
    nan, for the round trip.

    Errors.  Python exceptions are the constructors of [error]; a function
    that can raise returns a [result]. *)

From Stdlib Require Import String Bool Arith ZArith QArith Qminmax Lia Lqa List Sorted.
From Stdlib Require PrimFloat.
Import ListNotations.

Close Scope Q_scope.
Open Scope nat_scope.

Set Implicit Arguments.

(** ** Exceptions *)

Inductive error : Type :=
| KeyError      (* a column name that is not in the frame *)
| IndexError    (* an index outside an array or a list *)
| ValueError    (* shapes that do not broadcast, zero slice step, empty reduction *)
| AxisError.    (* an axis the array does not have *)

Inductive result (A : Type) : Type :=
| Ok (a : A)
| Err (e : error).

Arguments Ok {A} a.
Arguments Err {A} e.

Definition bind {A B : Type} (r : result A) (k : A -> result B) : result B :=
  match r with
  | Ok a => k a
  | Err e => Err e
  end.

Declare Scope result_scope.
Delimit Scope result_scope with result.
Notation "x <- r ;; k" := (bind r (fun x => k))
  (at level 61, r at next level, right associativity) : result_scope.
Notation "' p <- r ;; k" := (bind r (fun x => let p := x in k))
  (at level 61, p pattern, r at next level, right associativity) : result_scope.
Open Scope result_scope.

(** A list comprehension whose body can raise: left to right, the first
    exception wins. *)
Fixpoint mapM {A B : Type} (f : A -> result B) (l : list A) : result (list B) :=
  match l with
  | [] => Ok []
  | a :: l' => b <- f a ;; bs <- mapM f l' ;; Ok (b :: bs)
  end.

(** [l[i]] for a non-negative index. *)
Definition lookup {A : Type} (l : list A) (i : nat) : result A :=
  match nth_error l i with
  | Some a => Ok a
  | None => Err IndexError
  end.

(** [range(m)]: empty when [m] is not positive. *)
Definition range (m : Z) : list nat := seq 0 (Z.to_nat m).

(** ** numpy arrays of one and two dimensions *)

(** A 2-D array: [ncols] is kept apart from the rows, so that an array of
    shape (0, c) remembers c. *)
Record matrix (A : Type) : Type := mkMat {
  ncols : nat;
  rows : list (list A)
}.

Arguments mkMat {A} ncols rows.

Inductive ndarray (A : Type) : Type :=
| Arr1 (v : list A)      (* shape (len v,) *)
| Arr2 (x : matrix A).   (* shape (len (rows x), ncols x) *)

Arguments Arr1 {A} v.
Arguments Arr2 {A} x.

Definition shape {A : Type} (a : ndarray A) : list nat :=
  match a with
  | Arr1 v => [length v]
  | Arr2 x => [length (rows x); ncols x]
  end.

Definition ndim {A : Type} (a : ndarray A) : nat := length (shape a).

(** [len(a)] and [a.shape[0]]. *)
Definition len {A : Type} (a : ndarray A) : nat :=
  match a with
  | Arr1 v => length v
  | Arr2 x => length (rows x)
  end.

(** [np.array(l)] for a Python list [l] of 1-D arrays: the empty list gives
    the empty 1-D array of shape (0,); rows of one length are stacked; rows
    of different lengths have no common shape. *)
Definition np_array {A : Type} (l : list (list A)) : result (ndarray A) :=
  match l with
  | [] => Ok (Arr1 [])
  | r :: rs =>
      if forallb (fun r' => length r' =? length r) rs
      then Ok (Arr2 (mkMat (length r) l))
      else Err ValueError
  end.

(** [a.all(axis=1)]. *)
Definition all_axis1 (a : ndarray bool) : result (list bool) :=
  match a with
  | Arr1 _ => Err AxisError
  | Arr2 x => Ok (map (forallb (fun b => b)) (rows x))
  end.

(** [a[i,:]]. *)
Definition row_at {A : Type} (a : ndarray A) (i : nat) : result (list A) :=
  match a with
  | Arr1 _ => Err IndexError
  | Arr2 x => lookup (rows x) i
  end.

(** The length two dimensions broadcast to. *)
Definition bdim (c k : nat) : result nat :=
  if c =? k then Ok c
  else if k =? 1 then Ok c
  else if c =? 1 then Ok k
  else Err ValueError.

(** [a[j]] in a dimension of length [n] broadcast along: a dimension of
    length 1 repeats its only entry. *)
Definition bget {A : Type} (a : list A) (j : nat) : result A :=
  if length a =? 1 then lookup a 0 else lookup a j.

(** An elementwise binary operation on two 1-D arrays. *)
Definition broadcast {A B C : Type} (f : A -> B -> C) (a : list A) (b : list B)
  : result (list C) :=
  n <- bdim (length a) (length b) ;;
  mapM (fun j => x <- bget a j ;; y <- bget b j ;; Ok (f x y)) (seq 0 n).

(** An elementwise binary operation on a 2-D array and a 1-D array. *)
Definition broadcast2 {A B C : Type} (f : A -> B -> C) (x : matrix A) (b : list B)
  : result (matrix C) :=
  n <- bdim (ncols x) (length b) ;;
  rows' <- mapM (fun r => broadcast f r b) (rows x) ;;
  Ok (mkMat n rows').

(** Python's [l[start:stop:step]] for non-negative bounds and step: an
    exception for a zero step, bounds clipped to the length. *)
Definition slice_indices (n start stop step : nat) : result (list nat) :=
  if step =? 0 then Err ValueError
  else
    let start' := Nat.min start n in
    let stop' := Nat.min stop n in
    let count := if start' <? stop' then (stop' - start' - 1) / step + 1 else 0 in
    Ok (map (fun k => start' + k * step) (seq 0 count)).

Definition slice {A : Type} (l : list A) (start stop step : nat) : result (list A) :=
  idx <- slice_indices (length l) start stop step ;;
  mapM (lookup l) idx.

(** ** The module's tables *)

Open Scope string_scope.
Open Scope nat_scope.

Definition headers : list string :=
  ["year"; "day"; "hour"; "Bz"; "Np"; "V"; "Dst"].

Definition nulls : list (option Q) :=
  [None; None; None; Some 999.9; Some 999.9; Some 9999.0; Some 999]%Q.

(** ** The data file and pandas frames *)

(** A parsed line of the data file. *)
Record row : Type := mkRow {
  year : Q; day : Q; hour : Q; Bz : Q; Np : Q; V : Q; Dst : Q
}.

Definition row_values (r : row) : list Q :=
  [year r; day r; hour r; Bz r; Np r; V r; Dst r].

Record frame : Type := mkFrame {
  columns : list string;
  values : list (list Q)
}.

(** The lines [skiprows=rowbeg, nrows=nrows] selects: [nrows=None] reads to
    the end of the file. *)
Definition read_lines (file : list row) (rowbeg : nat) (nrows : option nat) : list row :=
  let rest := skipn rowbeg file in
  match nrows with Some n => firstn n rest | None => rest end.

(** [pd.read_table(filename, header=None, names=headers, skiprows=rowbeg,
    nrows=nrows)]. *)
Definition read_table (file : list row) (rowbeg : nat) (nrows : option nat) : frame :=
  mkFrame headers (map row_values (read_lines file rowbeg nrows)).

(** [columns.get_loc(name)]. *)
Fixpoint get_loc (cols : list string) (name : string) : result nat :=
  match cols with
  | [] => Err KeyError
  | c :: cols' =>
      if String.eqb c name then Ok 0
      else p <- get_loc cols' name ;; Ok (S p)
  end.

(** [data[cols]]: the named columns, in the order of [cols]. *)
Definition getitem (data : frame) (cols : list string) : result frame :=
  locs <- mapM (get_loc (columns data)) cols ;;
  vals <- mapM (fun r => mapM (lookup r) locs) (values data) ;;
  Ok (mkFrame cols vals).

(** [frame.shape[0]]. *)
Definition nrows_of (f : frame) : nat := length (values f).

(** [np.array(frame.iloc[k:])]. *)
Definition iloc_from (f : frame) (k : nat) : ndarray Q :=
  Arr2 (mkMat (length (columns f)) (skipn k (values f))).

(** [v != null] for one cell: a value is never equal to [None]. *)
Definition ne_null (v : Q) (null : option Q) : bool :=
  match null with
  | None => true
  | Some s => negb (Qeq_bool v s)
  end.

(** ** The class *)

Record omnidata : Type := mkOmni {
  filename : list row;   (* the parsed contents of the file of that name *)
  dt : nat;
  nt : nat;
  fcast : nat
}.

(** [omnidata.__init__]: an argument left out takes its default. *)
Definition omnidata_init (filename : list row) (dt nt fcast : option nat) : omnidata :=
  mkOmni filename
    (match dt with Some d => d | None => 1 end)
    (match nt with Some n => n | None => 5 end)
    (match fcast with Some f => f | None => 1 end).

(** [omnidata.len]. *)
Definition omni_len (self : omnidata) : nat := length (filename self).

(** [omnidata.read]. *)
Definition read (self : omnidata) (rowbeg : nat) (nrows : option nat)
    (cols : list string) : result (frame * matrix bool) :=
  let data := read_table (filename self) rowbeg nrows in
  cnulls <- mapM (get_loc (columns data)) cols ;;
  sub <- getitem data cols ;;
  ns <- mapM (lookup nulls) cnulls ;;
  mask <- broadcast2 ne_null (mkMat (length (columns sub)) (values sub)) ns ;;
  Ok (sub, mask).

(** The comprehension [[a[i,:] for i in range(m) if mask[i]]]. *)
Fixpoint select_rows {A : Type} (a : ndarray A) (mask : list bool) (idx : list nat)
  : result (list (list A)) :=
  match idx with
  | [] => Ok []
  | i :: idx' =>
      b <- lookup mask i ;;
      if b then r <- row_at a i ;; rs <- select_rows a mask idx' ;; Ok (r :: rs)
      else select_rows a mask idx'
  end.

(** The comprehension [[t[i:i+T0:dt].flatten() for i in range(m)]]. *)
Definition windows {A : Type} (t : list (list A)) (T0 step : nat) (m : Z)
  : result (list (list A)) :=
  mapM (fun i => w <- slice t i (i + T0) step ;; Ok (concat w)) (range m).

(** [omnidata.load]. *)
Definition load (self : omnidata) (xcols ycols : list string)
    (rowbeg : nat) (nrows : option nat) : result (ndarray Q * ndarray Q) :=
  let T0 := dt self * nt self in
  let tau := T0 + fcast self in
  '(xraw, xmask) <- read self rowbeg nrows xcols ;;
  '(yraw, ymask) <- read self rowbeg nrows ycols ;;
  let m := (Z.of_nat (nrows_of xraw) - Z.of_nat tau)%Z in
  let Y := iloc_from yraw tau in
  Xrows <- windows (values xraw) T0 (dt self) m ;;
  X <- np_array Xrows ;;
  let Ymask := Arr2 (mkMat (ncols ymask) (skipn tau (rows ymask))) in
  Xmrows <- windows (rows xmask) T0 (dt self) m ;;
  Xmask <- np_array Xmrows ;;
  xall <- all_axis1 Xmask ;;
  yall <- all_axis1 Ymask ;;
  mask <- broadcast andb xall yall ;;   (* the column [mask[i]] of the (m,1) array *)
  let m := len Y in
  Yrows <- select_rows Y mask (seq 0 m) ;;
  Y' <- np_array Yrows ;;
  Xsel <- select_rows X mask (seq 0 m) ;;
  X' <- np_array Xsel ;;
  Ok (X', Y').

(** [x.max(axis=0)] and [x.min(axis=0)]: the rows folded with the
    elementwise operation; no rows, no result. *)
Definition reduce_axis0 (f : Q -> Q -> Q) (x : matrix Q) : result (list Q) :=
  match rows x with
  | [] => Err ValueError
  | r :: rs =>
      Ok (fold_left (fun acc r' => map (fun p => f (fst p) (snd p)) (combine acc r')) rs r)
  end.

(** [x.mean(axis=0)]: the sum of the rows over their number; the mean of
    no rows is nan. *)
Definition mean_axis0 (x : matrix Q) : list (option Q) :=
  let total :=
    fold_left (fun acc r => map (fun p => Qplus (fst p) (snd p)) (combine acc r))
              (rows x) (repeat 0%Q (ncols x)) in
  match rows x with
  | [] => map (fun _ => None) total
  | _ :: _ => map (fun s => Some (s / inject_Z (Z.of_nat (length (rows x))))%Q) total
  end.

(** Float arithmetic on cells that may not be finite. *)
Definition fsub (a : Q) (b : option Q) : option Q :=
  option_map (fun q => (a - q)%Q) b.

Definition fdiv (a : option Q) (b : Q) : option Q :=
  match a with
  | Some q => if Qeq_bool b 0 then None else Some (q / b)%Q
  | None => None
  end.

(** [omnidata.normalize]. *)
Definition normalize {R : Type} (rank : R) (x : matrix Q)
    (Max Min Mean : option (list Q))
  : result (matrix (option Q) * list Q * list Q * list (option Q)) :=
  x_max <- match Max with None => reduce_axis0 Qmax x | Some v => Ok v end ;;
  x_min <- match Min with None => reduce_axis0 Qmin x | Some v => Ok v end ;;
  let x_mean := match Mean with None => mean_axis0 x | Some v => map Some v end in
  num <- broadcast2 fsub x x_mean ;;
  den <- broadcast Qminus x_max x_min ;;
  x_norm <- broadcast2 fdiv num den ;;
  Ok (x_norm, x_max, x_min, x_mean).

(** ** [normalize] and [denorm] in binary64 *)

Module F64.

Import PrimFloat.
Local Open Scope float_scope.

(** One step of numpy's maximum and minimum reductions: a nan wins. *)
Definition fmax (a b : float) : float := if (b <=? a) || is_nan a then a else b.

Definition fmin (a b : float) : float := if (a <=? b) || is_nan a then a else b.

(** The row count as a float (exact below 2^53). *)
Fixpoint of_nat (n : nat) : float :=
  match n with
  | O => 0
  | S k => of_nat k + 1
  end.

(** [x.max(axis=0)] and [x.min(axis=0)]: the rows folded with the
    elementwise operation; no rows, no result. *)
Definition reduce_axis0 (f : float -> float -> float) (x : matrix float)
  : result (list float) :=
  match rows x with
  | [] => Err ValueError
  | r :: rs =>
      Ok (fold_left (fun acc r' => map (fun p => f (fst p) (snd p)) (combine acc r')) rs r)
  end.

(** [x.mean(axis=0)]: the rows added one after the other, over their number;
    the mean of no rows is 0/0, nan. *)
Definition mean_axis0 (x : matrix float) : list float :=
  let total :=
    match rows x with
    | [] => repeat 0 (ncols x)
    | r :: rs =>
        fold_left (fun acc r' => map (fun p => fst p + snd p) (combine acc r')) rs r
    end in
  map (fun s => s / of_nat (length (rows x))) total.

(** [omnidata.normalize]. *)
Definition normalize {R : Type} (rank : R) (x : matrix float)
    (Max Min Mean : option (list float))
  : result (matrix float * list float * list float * list float) :=
  x_max <- match Max with None => reduce_axis0 fmax x | Some v => Ok v end ;;
  x_min <- match Min with None => reduce_axis0 fmin x | Some v => Ok v end ;;
  let x_mean := match Mean with None => mean_axis0 x | Some v => v end in
  num <- broadcast2 sub x x_mean ;;
  den <- broadcast sub x_max x_min ;;
  x_norm <- broadcast2 div num den ;;
  Ok (x_norm, x_max, x_min, x_mean).



(** Three samples of two features: every operation of the round trip is
    exact on them. *)
Definition samples : matrix float := mkMat 2 [[1; 5]; [3; 6]; [2; 7]].


End F64.

(** ** The vocabulary of the properties *)

(** The seven columns of the file, by name. *)
Inductive column : Type := CYear | CDay | CHour | CBz | CNp | CV | CDst.

Definition col_name (c : column) : string :=
  match c with
  | CYear => "year" | CDay => "day" | CHour => "hour"
  | CBz => "Bz" | CNp => "Np" | CV => "V" | CDst => "Dst"
  end.

Definition col_get (c : column) (r : row) : Q :=
  match c with
  | CYear => year r | CDay => day r | CHour => hour r
  | CBz => Bz r | CNp => Np r | CV => V r | CDst => Dst r
  end.

(** The place of a column in a line of the file. *)
Definition col_pos (c : column) : nat :=
  match c with
  | CYear => 0 | CDay => 1 | CHour => 2 | CBz => 3 | CNp => 4 | CV => 5 | CDst => 6
  end.

(** The value that stands for a missing measurement in a column. *)
Definition sentinel (c : column) : option Q :=
  match c with
  | CBz => Some 999.9%Q
  | CNp => Some 999.9%Q
  | CV => Some 9999.0%Q
  | CDst => Some 999%Q
  | CYear | CDay | CHour => None
  end.

(** A value of column [c] is a measurement. *)
Definition measured (c : column) (v : Q) : Prop :=
  forall s, sentinel c = Some s -> ~ (v == s)%Q.

(** The table and the mask of the columns [cs] over the lines [rs]. *)
Definition table (cs : list column) (rs : list row) : list (list Q) :=
  map (fun r => map (fun c => col_get c r) cs) rs.

Definition mask_of (cs : list column) (rs : list row) : list (list bool) :=
  map (fun r => map (fun c => ne_null (col_get c r) (sentinel c)) cs) rs.

(** The window that starts at row [i]: [n] rows, [step] apart, flattened. *)
Definition window {A : Type} (t : list (list A)) (step n i : nat) : list A :=
  concat (map (fun k => nth (i + k * step) t []) (seq 0 n)).

(** The target of the window that starts at row [i]. *)
Definition target {A : Type} (t : list (list A)) (tau i : nat) : list A :=
  nth (i + tau) t [].

(** A window is kept when its mask entries and those of its target hold. *)
Definition keep (xm ym : list (list bool)) (step n tau i : nat) : bool :=
  forallb (fun b => b) (window xm step n i) && forallb (fun b => b) (target ym tau i).

Definition kept_starts (xm ym : list (list bool)) (step n tau m : nat) : list nat :=
  filter (keep xm ym step n tau) (seq 0 m).

(** Every value the pair that starts at row [i] uses is a measurement: the
    [n] window rows, [step] apart, in the columns [xcs], and the target row in
    the columns [ycs]. *)
Definition valid_start (xcs ycs : list column) (rs : list row)
    (step n tau i : nat) : Prop :=
  (forall k r c, k < n -> nth_error rs (i + k * step) = Some r ->
                 In c xcs -> measured c (col_get c r)) /\
  (forall r c, nth_error rs (i + tau) = Some r ->
               In c ycs -> measured c (col_get c r)).

(** Rows of length [c] stacked by [np.array]. *)
Definition stack {A : Type} (c : nat) (l : list (list A)) : ndarray A :=
  match l with
  | [] => Arr1 []
  | _ :: _ => Arr2 (mkMat c l)
  end.

(** Two lists combined elementwise. *)
Definition zipw {A B C : Type} (f : A -> B -> C) (a : list A) (b : list B) : list C :=
  map (fun p => f (fst p) (snd p)) (combine a b).

(** Every row of a 2-D array has [ncols] entries. *)
Definition wf {A : Type} (x : matrix A) : Prop :=
  Forall (fun r => length r = ncols x) (rows x).

(** Column [j] of a 2-D array, its sum and the number of its rows. *)
Definition col {A : Type} (d : A) (x : matrix A) (j : nat) : list A :=
  map (fun r => nth j r d) (rows x).


(** The scenario of the specification: four lines, the second without Bz. *)
Definition scenario : omnidata :=
  mkOmni [ mkRow 2000 1 0 1 5 400 (-10);
           mkRow 2000 1 1 999.9 5 400 (-10);
           mkRow 2000 1 2 2 5 400 (-10);
           mkRow 2000 1 3 3 5 400 (-10) ]%Q 1 2 0.

(** The lines of the scenario read with one history point and no forecast
    gap: the windows that start at rows 0 and 2 are kept, the one that starts
    at row 1 is dropped. *)
Definition scenario_nt1 : omnidata := mkOmni (filename scenario) 1 1 0.

(** The lines of the scenario read with the default configuration. *)
Definition scenario_default : omnidata := mkOmni (filename scenario) 1 5 1.

(** The file of the scenario with a fifth line. *)
Definition scenario_longer : omnidata :=
  mkOmni (filename scenario ++ [mkRow 2000 1 4 4 5 400 (-10)]%Q) 1 1 0.

(** Three samples of two features, neither of them constant. *)
Definition samples : matrix Q := mkMat 2 [[1; 5]; [3; 6]; [2; 7]]%Q.

(** Three samples whose second feature is constant. *)
Definition flat_samples : matrix Q := mkMat 2 [[1; 5]; [3; 5]; [2; 5]]%Q.


(** ** Lists and exceptions *)

Lemma mapM_ok {A B : Type} (f : A -> result B) (g : A -> B) (l : list A) :
  (forall a, In a l -> f a = Ok (g a)) -> mapM f l = Ok (map g l).
Proof.
  induction l as [|a l IH]; intros H; simpl; [reflexivity|].
  rewrite (H a (or_introl eq_refl)). simpl.
  rewrite IH by (intros; apply H; right; assumption).
  reflexivity.
Qed.

Lemma lookup_nth {A : Type} (l : list A) (i : nat) (d : A) :
  i < length l -> lookup l i = Ok (nth i l d).
Proof.
  intros H. unfold lookup.
  rewrite (nth_error_nth' l d H). reflexivity.
Qed.

Lemma lookup_some {A : Type} (l : list A) (i : nat) (a : A) :
  nth_error l i = Some a -> lookup l i = Ok a.
Proof. intros H. unfold lookup. rewrite H. reflexivity. Qed.

Lemma bdim_same (n : nat) : bdim n n = Ok n.
Proof. unfold bdim. rewrite Nat.eqb_refl. reflexivity. Qed.

Lemma bget_nth {A : Type} (l : list A) (j : nat) (d : A) :
  j < length l -> bget l j = Ok (nth j l d).
Proof.
  intros H. unfold bget.
  destruct (length l =? 1) eqn:E.
  - apply Nat.eqb_eq in E. assert (j = 0) by lia. subst j.
    apply lookup_nth. lia.
  - apply lookup_nth. exact H.
Qed.

Lemma zipw_length {A B C : Type} (f : A -> B -> C) (a : list A) (b : list B) :
  length a = length b -> length (zipw f a b) = length a.
Proof.
  intros H. unfold zipw. rewrite length_map, length_combine. lia.
Qed.

Lemma nth_error_zipw {A B C : Type} (f : A -> B -> C) (a : list A) (b : list B)
    (j : nat) (u : A) (v : B) :
  nth_error a j = Some u -> nth_error b j = Some v ->
  nth_error (zipw f a b) j = Some (f u v).
Proof.
  revert b j. induction a as [|x a IH]; intros [|y b] [|j] Ha Hb;
    simpl in *; try discriminate.
  - inversion Ha; inversion Hb; subst. reflexivity.
  - apply IH; assumption.
Qed.

Lemma zipw_as_seq {A B C : Type} (f : A -> B -> C) (a : list A) (b : list B)
    (da : A) (db : B) :
  length a = length b ->
  map (fun j => f (nth j a da) (nth j b db)) (seq 0 (length a)) = zipw f a b.
Proof.
  revert b. induction a as [|x a IH]; intros [|y b] H; simpl in *;
    try discriminate; [reflexivity|].
  unfold zipw. simpl. f_equal.
  rewrite <- seq_shift, map_map. apply IH. lia.
Qed.

Lemma broadcast_same {A B C : Type} (f : A -> B -> C) (a : list A) (b : list B) :
  length a = length b -> broadcast f a b = Ok (zipw f a b).
Proof.
  intros H. unfold broadcast. rewrite <- H, bdim_same. simpl.
  destruct a as [|x a]; [destruct b; [reflexivity|discriminate]|].
  destruct b as [|y b]; [discriminate|].
  rewrite <- (zipw_as_seq f (x :: a) (y :: b) x y H).
  apply mapM_ok. intros j Hj. apply in_seq in Hj.
  rewrite (bget_nth (x :: a) x) by lia.
  rewrite (bget_nth (y :: b) y) by lia.
  reflexivity.
Qed.

Lemma broadcast2_same {A B C : Type} (f : A -> B -> C) (x : matrix A) (b : list B) :
  wf x -> length b = ncols x ->
  broadcast2 f x b = Ok (mkMat (ncols x) (map (fun r => zipw f r b) (rows x))).
Proof.
  intros Hwf Hb. unfold broadcast2. rewrite Hb, bdim_same. simpl.
  rewrite (mapM_ok _ (fun r => zipw f r b)); [reflexivity|].
  intros r Hr. apply broadcast_same.
  unfold wf in Hwf. rewrite Forall_forall in Hwf. rewrite (Hwf r Hr). lia.
Qed.

Lemma mapM_map_ok {A A' B : Type} (f : A' -> result B) (h : A -> A') (g : A -> B)
    (l : list A) :
  (forall a, In a l -> f (h a) = Ok (g a)) -> mapM f (map h l) = Ok (map g l).
Proof.
  induction l as [|a l IH]; intros H; simpl; [reflexivity|].
  rewrite (H a (or_introl eq_refl)). simpl.
  rewrite IH by (intros; apply H; right; assumption).
  reflexivity.
Qed.

Lemma zipw_map_map {A B C D : Type} (f : B -> C -> D) (g : A -> B) (h : A -> C)
    (l : list A) :
  zipw f (map g l) (map h l) = map (fun a => f (g a) (h a)) l.
Proof.
  unfold zipw. induction l as [|a l IH]; simpl; [reflexivity|].
  f_equal. exact IH.
Qed.

(** ** Reading the file *)

Lemma get_loc_headers (c : column) : get_loc headers (col_name c) = Ok (col_pos c).
Proof. destruct c; reflexivity. Qed.

Lemma lookup_row_values (r : row) (c : column) :
  lookup (row_values r) (col_pos c) = Ok (col_get c r).
Proof. destruct c; reflexivity. Qed.

Lemma lookup_nulls (c : column) : lookup nulls (col_pos c) = Ok (sentinel c).
Proof. destruct c; reflexivity. Qed.

Lemma headers_columns (name : string) :
  In name headers <-> exists c, name = col_name c.
Proof.
  split.
  - simpl. intros H.
    repeat (destruct H as [H|H]; [subst name|]); try contradiction;
      [exists CYear|exists CDay|exists CHour|exists CBz|exists CNp|exists CV|exists CDst];
      reflexivity.
  - intros [c ->]. destruct c; simpl; tauto.
Qed.

Lemma table_length (cs : list column) (rs : list row) :
  length (table cs rs) = length rs.
Proof. unfold table. apply length_map. Qed.

Lemma mask_of_length (cs : list column) (rs : list row) :
  length (mask_of cs rs) = length rs.
Proof. unfold mask_of. apply length_map. Qed.

Lemma table_rows (cs : list column) (rs : list row) :
  Forall (fun r => length r = length cs) (table cs rs).
Proof.
  unfold table. apply Forall_forall. intros r Hr.
  apply in_map_iff in Hr. destruct Hr as [r0 [<- _]]. apply length_map.
Qed.

Lemma mask_of_rows (cs : list column) (rs : list row) :
  Forall (fun r => length r = length cs) (mask_of cs rs).
Proof.
  unfold mask_of. apply Forall_forall. intros r Hr.
  apply in_map_iff in Hr. destruct Hr as [r0 [<- _]]. apply length_map.
Qed.

Lemma getitem_ok (file : list row) (rowbeg : nat) (nrows : option nat)
    (cs : list column) :
  getitem (read_table file rowbeg nrows) (map col_name cs)
  = Ok (mkFrame (map col_name cs) (table cs (read_lines file rowbeg nrows))).
Proof.
  unfold getitem, read_table. simpl.
  rewrite (mapM_map_ok _ col_name col_pos) by (intros; apply get_loc_headers).
  simpl.
  rewrite (mapM_map_ok _ row_values (fun r => map (fun c => col_get c r) cs)).
  - reflexivity.
  - intros r _. apply mapM_map_ok. intros c _. apply lookup_row_values.
Qed.

Lemma read_ok (self : omnidata) (rowbeg : nat) (nrows : option nat)
    (cs : list column) :
  let rs := read_lines (filename self) rowbeg nrows in
  read self rowbeg nrows (map col_name cs)
  = Ok (mkFrame (map col_name cs) (table cs rs), mkMat (length cs) (mask_of cs rs)).
Proof.
  intros rs. unfold read.
  replace (columns (read_table (filename self) rowbeg nrows)) with headers
    by reflexivity.
  rewrite (mapM_map_ok _ col_name col_pos) by (intros; apply get_loc_headers).
  simpl. rewrite getitem_ok. simpl.
  rewrite (mapM_map_ok _ col_pos sentinel) by (intros; apply lookup_nulls).
  simpl. fold rs.
  rewrite broadcast2_same.
  - simpl. rewrite length_map. do 3 f_equal.
    unfold table, mask_of. rewrite map_map. apply map_ext. intros r.
    apply zipw_map_map.
  - unfold wf. simpl. rewrite length_map. apply table_rows.
  - simpl. rewrite !length_map. reflexivity.
Qed.

Lemma ne_null_measured (c : column) (v : Q) :
  ne_null v (sentinel c) = true <-> measured c v.
Proof.
  unfold measured, ne_null. destruct (sentinel c) as [s|].
  - rewrite negb_true_iff. split.
    + intros H s' Hs' E. inversion Hs'; subst s'.
      apply Qeq_bool_iff in E. congruence.
    + intros H. destruct (Qeq_bool v s) eqn:E; [|reflexivity].
      exfalso. apply (H s eq_refl). apply Qeq_bool_iff. exact E.
  - split; [intros _ s Hs; discriminate | reflexivity].
Qed.

(** C6. For every start row, row count and list of columns of the file,
    [read] returns a table and a mask with the same number of rows (the
    lines read) and with the columns in the order of the list the caller
    gave; a mask entry is true exactly when the raw value differs from the
    sentinel of its column (Bz 999.9, Np 999.9, V 9999.0, Dst 999), and the
    entries of year, day and hour, which have no sentinel, are always true. *)
Theorem read_table_and_mask (self : omnidata) (rowbeg : nat) (nrows : option nat)
    (cs : list column) :
  let rs := read_lines (filename self) rowbeg nrows in
  exists tbl mask,
    read self rowbeg nrows (map col_name cs) = Ok (tbl, mask) /\
    columns tbl = map col_name cs /\
    length (values tbl) = length rs /\
    length (rows mask) = length rs /\
    ncols mask = length cs /\
    map sentinel [CBz; CNp; CV; CDst]
      = [Some 999.9; Some 999.9; Some 9999.0; Some 999]%Q /\
    forall i r, nth_error rs i = Some r ->
      exists vrow mrow,
        nth_error (values tbl) i = Some vrow /\
        nth_error (rows mask) i = Some mrow /\
        length vrow = length cs /\ length mrow = length cs /\
        forall j c, nth_error cs j = Some c ->
          nth_error vrow j = Some (col_get c r) /\
          exists b, nth_error mrow j = Some b /\
            (b = true <-> measured c (col_get c r)) /\
            (c = CYear \/ c = CDay \/ c = CHour -> b = true).
Proof.
  intros rs.
  exists (mkFrame (map col_name cs) (table cs rs)), (mkMat (length cs) (mask_of cs rs)).
  split; [apply read_ok|]. simpl.
  split; [reflexivity|].
  split; [apply table_length|].
  split; [apply mask_of_length|].
  split; [reflexivity|].
  split; [reflexivity|].
  intros i r Hi.
  exists (map (fun c => col_get c r) cs),
         (map (fun c => ne_null (col_get c r) (sentinel c)) cs).
  split; [apply (map_nth_error (fun r => map (fun c => col_get c r) cs)); exact Hi|].
  split; [apply (map_nth_error
            (fun r => map (fun c => ne_null (col_get c r) (sentinel c)) cs)); exact Hi|].
  split; [apply length_map|].
  split; [apply length_map|].
  intros j c Hj.
  split; [apply (map_nth_error (fun c => col_get c r)); exact Hj|].
  exists (ne_null (col_get c r) (sentinel c)).
  split; [apply (map_nth_error (fun c => ne_null (col_get c r) (sentinel c))); exact Hj|].
  split; [apply ne_null_measured|].
  intros [E|[E|E]]; subst c; reflexivity.
Qed.

(** ** Slices and windows *)

Lemma stride_count (step n : nat) :
  1 <= step -> 1 <= n -> (step * n - 1) / step + 1 = n.
Proof.
  intros Hs Hn.
  assert (E : (step * n - 1) / step = n - 1).
  { symmetry. apply (Nat.div_unique _ _ _ (step - 1)); [lia|nia]. }
  rewrite E. lia.
Qed.

Lemma slice_strided {A : Type} (t : list A) (d : A) (step n i : nat) :
  1 <= step -> i + step * n <= length t ->
  slice t i (i + step * n) step = Ok (map (fun k => nth (i + k * step) t d) (seq 0 n)).
Proof.
  intros Hs Hlen. unfold slice, slice_indices.
  destruct (step =? 0) eqn:E0; [apply Nat.eqb_eq in E0; lia|].
  rewrite (Nat.min_l i) by nia.
  rewrite (Nat.min_l (i + step * n)) by lia.
  assert (Hc : (if i <? i + step * n
                then (i + step * n - i - 1) / step + 1 else 0) = n).
  { destruct n as [|n'].
    - rewrite Nat.mul_0_r, Nat.add_0_r, Nat.ltb_irrefl. reflexivity.
    - assert (Hlt : i < i + step * S n') by nia.
      apply Nat.ltb_lt in Hlt. rewrite Hlt.
      replace (i + step * S n' - i - 1) with (step * S n' - 1) by lia.
      apply stride_count; lia. }
  rewrite Hc. simpl.
  rewrite (mapM_map_ok _ (fun k => i + k * step) (fun k => nth (i + k * step) t d)).
  - reflexivity.
  - intros k Hk. apply in_seq in Hk. apply lookup_nth. nia.
Qed.

Lemma windows_ok {A : Type} (t : list (list A)) (step n tau : nat) :
  1 <= step -> step * n <= tau ->
  windows t (step * n) step (Z.of_nat (length t) - Z.of_nat tau)
  = Ok (map (window t step n) (seq 0 (length t - tau))).
Proof.
  intros Hs Htau. unfold windows, range.
  replace (Z.to_nat (Z.of_nat (length t) - Z.of_nat tau)) with (length t - tau) by lia.
  apply mapM_ok. intros i Hi. apply in_seq in Hi.
  rewrite (slice_strided t [] n i Hs) by lia.
  reflexivity.
Qed.

Lemma concat_length_const {A : Type} (c : nat) (l : list (list A)) :
  Forall (fun r => length r = c) l -> length (concat l) = length l * c.
Proof.
  induction 1 as [|r l Hr _ IH]; simpl; [reflexivity|].
  rewrite length_app, IH, Hr. reflexivity.
Qed.

Lemma nth_row_length {A : Type} (c : nat) (t : list (list A)) (j : nat) :
  Forall (fun r => length r = c) t -> j < length t -> length (nth j t []) = c.
Proof.
  intros Ht Hj. rewrite Forall_forall in Ht. apply Ht. apply nth_In. exact Hj.
Qed.

Lemma window_length {A : Type} (c : nat) (t : list (list A)) (step n i : nat) :
  Forall (fun r => length r = c) t ->
  (forall k, k < n -> i + k * step < length t) ->
  length (window t step n i) = n * c.
Proof.
  intros Ht Hin. unfold window.
  rewrite concat_length_const with (c := c).
  - rewrite length_map, length_seq. reflexivity.
  - apply Forall_forall. intros r Hr. apply in_map_iff in Hr.
    destruct Hr as [k [<- Hk]]. apply in_seq in Hk.
    apply nth_row_length; [exact Ht|apply Hin; lia].
Qed.

Lemma skipn_as_map {A : Type} (d : A) (k : nat) (l : list A) :
  skipn k l = map (fun i => nth (i + k) l d) (seq 0 (length l - k)).
Proof.
  revert l. induction k as [|k IH]; intros l.
  - rewrite Nat.sub_0_r. simpl.
    induction l as [|a l IHl]; simpl; [reflexivity|].
    f_equal. rewrite <- seq_shift, map_map. rewrite IHl at 1.
    apply map_ext. intros i. rewrite !Nat.add_0_r. reflexivity.
  - destruct l as [|a l]; simpl; [reflexivity|].
    rewrite IH. apply map_ext. intros i.
    replace (i + S k) with (S (i + k)) by lia. reflexivity.
Qed.

Lemma np_array_stack {A : Type} (c : nat) (l : list (list A)) :
  Forall (fun r => length r = c) l -> np_array l = Ok (stack c l).
Proof.
  intros H. destruct l as [|r rs]; simpl; [reflexivity|].
  inversion H as [|r' rs' Hr Hrs]; subst.
  assert (E : forallb (fun r' => length r' =? length r) rs = true).
  { apply forallb_forall. intros r' Hr'. rewrite Forall_forall in Hrs.
    rewrite (Hrs r' Hr'). apply Nat.eqb_refl. }
  rewrite E. reflexivity.
Qed.

Lemma select_rows_ok {A : Type} (c : nat) (rs : list (list A)) (mask : list bool)
    (idx : list nat) :
  (forall i, In i idx -> i < length mask /\ i < length rs) ->
  select_rows (Arr2 (mkMat c rs)) mask idx
  = Ok (map (fun i => nth i rs []) (filter (fun i => nth i mask false) idx)).
Proof.
  induction idx as [|i idx IH]; intros H; simpl; [reflexivity|].
  destruct (H i (or_introl eq_refl)) as [Hm Hr].
  rewrite (lookup_nth mask false Hm). simpl.
  assert (IH' := IH (fun j Hj => H j (or_intror Hj))).
  destruct (nth i mask false).
  - rewrite (lookup_nth rs [] Hr). simpl. rewrite IH'. reflexivity.
  - exact IH'.
Qed.

Lemma filter_map_seq {A : Type} (w : nat -> A) (d : A) (p : nat -> bool) (m : nat) :
  map (fun i => nth i (map w (seq 0 m)) d) (filter p (seq 0 m))
  = map w (filter p (seq 0 m)).
Proof.
  apply map_ext_in. intros i Hi. apply filter_In in Hi. destruct Hi as [Hi _].
  apply in_seq in Hi.
  rewrite (nth_indep _ d (w 0)) by (rewrite length_map, length_seq; lia).
  rewrite map_nth, seq_nth by lia. reflexivity.
Qed.

Lemma stack_nonempty {A : Type} (c : nat) (l : list (list A)) :
  l <> [] -> stack c l = Arr2 (mkMat c l).
Proof. destruct l; [congruence|reflexivity]. Qed.

Lemma len_stack {A : Type} (c : nat) (l : list (list A)) : len (stack c l) = length l.
Proof. destruct l; reflexivity. Qed.

Lemma filter_nth_map_seq (p : nat -> bool) (m : nat) :
  filter (fun i => nth i (map p (seq 0 m)) false) (seq 0 m) = filter p (seq 0 m).
Proof.
  apply filter_ext_in. intros i Hi. apply in_seq in Hi.
  rewrite (nth_indep _ false (p 0)) by (rewrite length_map, length_seq; lia).
  rewrite map_nth, seq_nth by lia. reflexivity.
Qed.

Lemma map_seq_nonempty {A : Type} (w : nat -> A) (m : nat) :
  0 < m -> map w (seq 0 m) <> [].
Proof. destruct m; [lia|discriminate]. Qed.

(** ** [load] on a range with at least one candidate window *)

Section Load.

Variable self : omnidata.
Variables xcs ycs : list column.
Variable rowbeg : nat.
Variable nrows : option nat.

Let rs := read_lines (filename self) rowbeg nrows.
Let tau := dt self * nt self + fcast self.
Let m := length rs - tau.
Let xt := table xcs rs.
Let yt := table ycs rs.
Let xm := mask_of xcs rs.
Let ym := mask_of ycs rs.
Let kept := kept_starts xm ym (dt self) (nt self) tau m.

Hypothesis Hdt : 1 <= dt self.
Hypothesis Hm : tau < length rs.

Lemma windows_table {A : Type} (t : list (list A)) :
  length t = length rs ->
  windows t (dt self * nt self) (dt self) (Z.of_nat (length rs) - Z.of_nat tau)
  = Ok (map (window t (dt self) (nt self)) (seq 0 m)).
Proof.
  intros Ht. rewrite <- Ht. unfold m. rewrite <- Ht.
  apply windows_ok; [exact Hdt|unfold tau; lia].
Qed.

Lemma window_in_range (i k : nat) :
  i < m -> k < nt self -> i + k * dt self < length rs.
Proof. unfold m, tau. intros Hi Hk. nia. Qed.

Lemma windows_uniform {A : Type} (c : nat) (t : list (list A)) (idx : list nat) :
  length t = length rs -> Forall (fun r => length r = c) t ->
  (forall i, In i idx -> i < m) ->
  Forall (fun r => length r = nt self * c) (map (window t (dt self) (nt self)) idx).
Proof.
  intros Ht Hc Hidx. apply Forall_forall. intros r Hr.
  apply in_map_iff in Hr. destruct Hr as [i [<- Hi]].
  apply window_length; [exact Hc|].
  intros k Hk. rewrite Ht. apply window_in_range; [apply Hidx; exact Hi|exact Hk].
Qed.

Lemma targets_uniform {A : Type} (c : nat) (t : list (list A)) (idx : list nat) :
  length t = length rs -> Forall (fun r => length r = c) t ->
  (forall i, In i idx -> i < m) ->
  Forall (fun r => length r = c) (map (target t tau) idx).
Proof.
  intros Ht Hc Hidx. apply Forall_forall. intros r Hr.
  apply in_map_iff in Hr. destruct Hr as [i [<- Hi]].
  unfold target. apply nth_row_length; [exact Hc|].
  rewrite Ht. apply Hidx in Hi. unfold m in Hi. lia.
Qed.

Lemma skipn_targets {A : Type} (t : list (list A)) :
  length t = length rs -> skipn tau t = map (target t tau) (seq 0 m).
Proof.
  intros Ht. rewrite (skipn_as_map [] tau t), Ht. reflexivity.
Qed.

Lemma kept_lt (i : nat) : In i kept -> i < m.
Proof.
  unfold kept, kept_starts. intros H. apply filter_In in H.
  destruct H as [H _]. apply in_seq in H. lia.
Qed.

Lemma load_ok :
  load self (map col_name xcs) (map col_name ycs) rowbeg nrows
  = Ok (stack (nt self * length xcs) (map (window xt (dt self) (nt self)) kept),
        stack (length ycs) (map (target yt tau) kept)).
Proof.
  assert (Hpos : 0 < m) by (unfold m; lia).
  unfold load. rewrite !read_ok. fold rs. cbn [bind].
  unfold nrows_of, iloc_from. cbn [values columns ncols rows].
  fold xt yt xm ym tau.
  replace (length xt) with (length rs) by (symmetry; apply table_length).
  rewrite (windows_table xt) by apply table_length. cbn [bind].
  rewrite (np_array_stack (@windows_uniform _ _ xt (seq 0 m) (table_length xcs rs)
             (table_rows xcs rs) (fun i Hi => proj2 (proj1 (in_seq _ _ _) Hi)))).
  cbn [bind].
  rewrite (windows_table xm) by apply mask_of_length. cbn [bind].
  rewrite (np_array_stack (@windows_uniform _ _ xm (seq 0 m) (mask_of_length xcs rs)
             (mask_of_rows xcs rs) (fun i Hi => proj2 (proj1 (in_seq _ _ _) Hi)))).
  cbn [bind].
  rewrite !stack_nonempty by (apply map_seq_nonempty; exact Hpos).
  cbn [all_axis1 bind rows len].
  rewrite (skipn_targets ym) by apply mask_of_length.
  rewrite (skipn_targets yt) by apply table_length.
  rewrite !map_map.
  rewrite broadcast_same by (rewrite !length_map; reflexivity).
  cbn [bind]. rewrite zipw_map_map.
  change (fun a : nat =>
            forallb (fun b : bool => b) (window xm (dt self) (nt self) a)
            && forallb (fun b : bool => b) (target ym tau a))
    with (keep xm ym (dt self) (nt self) tau).
  rewrite !length_map, length_seq.
  rewrite !select_rows_ok
    by (intros i Hi; apply in_seq in Hi; rewrite !length_map, !length_seq; lia).
  cbn [bind].
  rewrite filter_nth_map_seq, !filter_map_seq.
  fold (kept_starts xm ym (dt self) (nt self) tau m). fold kept.
  rewrite (np_array_stack (@targets_uniform _ _ yt kept (table_length ycs rs)
             (table_rows ycs rs) kept_lt)).
  cbn [bind].
  rewrite (np_array_stack (@windows_uniform _ _ xt kept (table_length xcs rs)
             (table_rows xcs rs) kept_lt)).
  reflexivity.
Qed.

End Load.

(** ** Kept windows and measurements *)

Lemma forallb_concat {A : Type} (f : A -> bool) (l : list (list A)) :
  forallb f (concat l) = forallb (forallb f) l.
Proof.
  induction l as [|r l IH]; simpl; [reflexivity|].
  rewrite forallb_app, IH. reflexivity.
Qed.

Lemma mask_row_all (cs : list column) (rs : list row) (j : nat) (r : row) :
  nth_error rs j = Some r ->
  forallb (fun b => b) (nth j (mask_of cs rs) []) = true
  <-> (forall c, In c cs -> measured c (col_get c r)).
Proof.
  intros Hj.
  assert (E : nth j (mask_of cs rs) []
              = map (fun c => ne_null (col_get c r) (sentinel c)) cs).
  { apply nth_error_nth.
    apply (map_nth_error
             (fun r => map (fun c => ne_null (col_get c r) (sentinel c)) cs)).
    exact Hj. }
  rewrite E, forallb_forall. split.
  - intros H c Hc. apply ne_null_measured. apply H.
    apply in_map_iff. exists c. split; [reflexivity|exact Hc].
  - intros H b Hb. apply in_map_iff in Hb. destruct Hb as [c [<- Hc]].
    apply ne_null_measured. apply H. exact Hc.
Qed.

Lemma keep_valid (xcs ycs : list column) (rs : list row) (step n tau i : nat) :
  (forall k, k < n -> i + k * step < length rs) -> i + tau < length rs ->
  keep (mask_of xcs rs) (mask_of ycs rs) step n tau i = true
  <-> valid_start xcs ycs rs step n tau i.
Proof.
  intros Hw Ht. unfold keep, valid_start, window, target.
  rewrite andb_true_iff, forallb_concat, forallb_forall.
  split; intros [Hx Hy]; split.
  - intros k r c Hk Hr Hc.
    apply (proj1 (mask_row_all xcs rs (i + k * step) Hr)); [|exact Hc].
    apply Hx. apply in_map_iff. exists k. split; [reflexivity|].
    apply in_seq. lia.
  - intros r c Hr Hc.
    apply (proj1 (mask_row_all ycs rs (i + tau) Hr)); [exact Hy|exact Hc].
  - intros b Hb. apply in_map_iff in Hb. destruct Hb as [k [<- Hk]].
    apply in_seq in Hk.
    destruct (nth_error rs (i + k * step)) as [r|] eqn:Hr.
    + apply (proj2 (mask_row_all xcs rs (i + k * step) Hr)).
      intros c Hc. apply (Hx k r c); [lia|exact Hr|exact Hc].
    + apply nth_error_None in Hr. specialize (Hw k). lia.
  - destruct (nth_error rs (i + tau)) as [r|] eqn:Hr.
    + apply (proj2 (mask_row_all ycs rs (i + tau) Hr)).
      intros c Hc. apply (Hy r c); [reflexivity|exact Hc].
    + apply nth_error_None in Hr. lia.
Qed.

Lemma kept_starts_iff (self : omnidata) (xcs ycs : list column) (rs : list row)
    (i : nat) :
  let tau := dt self * nt self + fcast self in
  1 <= dt self -> tau < length rs ->
  In i (kept_starts (mask_of xcs rs) (mask_of ycs rs) (dt self) (nt self) tau
          (length rs - tau))
  <-> i < length rs - tau /\ valid_start xcs ycs rs (dt self) (nt self) tau i.
Proof.
  intros tau Hdt Hm. unfold kept_starts. rewrite filter_In, in_seq.
  split; intros [Hi Hk]; (split; [lia|]).
  - apply keep_valid in Hk; [exact Hk| |lia].
    intros k Hk'. unfold tau in *. nia.
  - apply keep_valid; [|lia|exact Hk].
    intros k Hk'. unfold tau in *. nia.
Qed.

Lemma kept_starts_sorted (xm ym : list (list bool)) (step n tau m : nat) :
  StronglySorted lt (kept_starts xm ym step n tau m).
Proof.
  unfold kept_starts. generalize 0 as a. induction m as [|m IH]; intros a; simpl.
  - constructor.
  - destruct (keep xm ym step n tau a).
    + constructor; [apply IH|].
      apply Forall_forall. intros j Hj. apply filter_In in Hj.
      destruct Hj as [Hj _]. apply in_seq in Hj. lia.
    + apply IH.
Qed.

Lemma sorted_nth_from (l : list nat) :
  StronglySorted lt l ->
  forall b, (forall x, In x l -> b <= x) ->
  forall j s, nth_error l j = Some s -> b + j <= s.
Proof.
  induction 1 as [|a l Hs IH Ha]; intros b Hb j s Hj.
  - destruct j; discriminate.
  - destruct j as [|j]; simpl in Hj.
    + inversion Hj; subst. specialize (Hb s (or_introl eq_refl)). lia.
    + assert (Hle : S a + j <= s).
      { apply IH; [|exact Hj]. intros x Hx.
        rewrite Forall_forall in Ha. specialize (Ha x Hx). lia. }
      specialize (Hb a (or_introl eq_refl)). lia.
Qed.

Lemma sorted_nth_ge (l : list nat) :
  StronglySorted lt l -> forall j s, nth_error l j = Some s -> j <= s.
Proof.
  intros Hs j s Hj.
  apply (@sorted_nth_from l Hs 0 (fun x _ => Nat.le_0_l x) j s Hj).
Qed.

Lemma filter_all_seq (p : nat -> bool) (m : nat) :
  (forall i, i < m -> p i = true) -> filter p (seq 0 m) = seq 0 m.
Proof.
  intros H. apply forallb_filter_id. apply forallb_forall.
  intros i Hi. apply in_seq in Hi. apply H. lia.
Qed.

(** ** [load] on a range without candidate window *)

Lemma load_no_candidate (self : omnidata) (xcs ycs : list column) (rowbeg : nat)
    (nrows : option nat) :
  length (read_lines (filename self) rowbeg nrows)
    <= dt self * nt self + fcast self ->
  load self (map col_name xcs) (map col_name ycs) rowbeg nrows = Err AxisError.
Proof.
  intros H. unfold load. rewrite !read_ok. cbn [bind].
  unfold nrows_of, windows, range. cbn [values].
  rewrite table_length.
  replace (Z.to_nat (Z.of_nat (length (read_lines (filename self) rowbeg nrows))
                     - Z.of_nat (dt self * nt self + fcast self))) with 0 by lia.
  reflexivity.
Qed.

Lemma concat_block {A : Type} (c : nat) (l : list (list A)) (k : nat) :
  Forall (fun r => length r = c) l -> k < length l ->
  firstn c (skipn (k * c) (concat l)) = nth k l [].
Proof.
  intros H. revert k. induction H as [|r l Hr _ IH]; intros k Hk; simpl in Hk.
  - lia.
  - destruct k as [|k]; simpl.
    + rewrite <- Hr. rewrite firstn_app, Nat.sub_diag, firstn_all. simpl.
      apply app_nil_r.
    + rewrite skipn_app, Hr.
      rewrite (skipn_all2 r) by lia. simpl.
      replace (c + k * c - c) with (k * c) by lia.
      apply IH. lia.
Qed.

Lemma window_block {A : Type} (c : nat) (t : list (list A)) (step n i k : nat) :
  Forall (fun r => length r = c) t ->
  (forall k, k < n -> i + k * step < length t) -> k < n ->
  firstn c (skipn (k * c) (window t step n i)) = nth (i + k * step) t [].
Proof.
  intros Ht Hin Hk. unfold window.
  rewrite concat_block.
  - rewrite (nth_indep _ [] (nth (i + 0 * step) t []))
      by (rewrite length_map, length_seq; exact Hk).
    rewrite (map_nth (fun k => nth (i + k * step) t [])), seq_nth by exact Hk.
    reflexivity.
  - apply Forall_forall. intros r Hr. apply in_map_iff in Hr.
    destruct Hr as [k' [<- Hk']]. apply in_seq in Hk'.
    apply nth_row_length; [exact Ht|apply Hin; lia].
  - rewrite length_map, length_seq. exact Hk.
Qed.

Lemma table_row (cs : list column) (rs : list row) (j : nat) (r : row) :
  nth_error rs j = Some r -> nth j (table cs rs) [] = map (fun c => col_get c r) cs.
Proof.
  intros H. apply nth_error_nth.
  apply (map_nth_error (fun r => map (fun c => col_get c r) cs)). exact H.
Qed.

Lemma row_at_stack {A : Type} (c : nat) (w : nat -> list A) (l : list nat)
    (j s : nat) :
  nth_error l j = Some s -> row_at (stack c (map w l)) j = Ok (w s).
Proof.
  intros H. destruct l as [|a l]; [destruct j; discriminate|].
  unfold stack. cbn [map row_at rows]. apply lookup_some.
  apply (map_nth_error w j (a :: l)). exact H.
Qed.

Lemma shape_stack {A : Type} (c : nat) (l : list (list A)) :
  l <> [] -> shape (stack c l) = [length l; c].
Proof. destruct l; [congruence|reflexivity]. Qed.

(** ** The properties of [load] *)

(** C1, as amended. For dt >= 1 and a range with at least one candidate
    (tau = dt*nt + fcast below the number of rows read), every candidate
    start i < m has as feature window the x-table rows i, i+dt, ...,
    i+(nt-1)dt flattened into one vector of length nt * |xcols| (its k-th
    block is the x-columns of line i + k*dt) and as target the y-table row
    i + tau; and when at least one window is kept, the kept windows are
    stacked into a 2-D array of shape (kept, nt * |xcols|), the kept targets
    into one of shape (kept, |ycols|), row j of both coming from the same
    start. *)
Theorem load_windows_and_targets (self : omnidata) (xcs ycs : list column)
    (rowbeg : nat) (nrows : option nat) :
  let rs := read_lines (filename self) rowbeg nrows in
  let tau := dt self * nt self + fcast self in
  let xt := table xcs rs in
  let yt := table ycs rs in
  let kept := kept_starts (mask_of xcs rs) (mask_of ycs rs)
                (dt self) (nt self) tau (length rs - tau) in
  1 <= dt self -> tau < length rs ->
  exists X Y,
    load self (map col_name xcs) (map col_name ycs) rowbeg nrows = Ok (X, Y) /\
    (forall i, i < length rs - tau ->
       length (window xt (dt self) (nt self) i) = nt self * length xcs /\
       (forall k r, k < nt self -> nth_error rs (i + k * dt self) = Some r ->
          firstn (length xcs)
            (skipn (k * length xcs) (window xt (dt self) (nt self) i))
          = map (fun c => col_get c r) xcs) /\
       (forall r, nth_error rs (i + tau) = Some r ->
          target yt tau i = map (fun c => col_get c r) ycs)) /\
    (kept <> [] ->
       shape X = [length kept; nt self * length xcs] /\
       shape Y = [length kept; length ycs] /\
       forall j s, nth_error kept j = Some s ->
         row_at X j = Ok (window xt (dt self) (nt self) s) /\
         row_at Y j = Ok (target yt tau s)).
Proof.
  intros rs tau xt yt kept Hdt Hm.
  exists (stack (nt self * length xcs) (map (window xt (dt self) (nt self)) kept)),
         (stack (length ycs) (map (target yt tau) kept)).
  split; [apply (load_ok self xcs ycs rowbeg nrows Hdt Hm)|].
  split.
  - intros i Hi.
    assert (Hin : forall k, k < nt self -> i + k * dt self < length xt).
    { intros k Hk. unfold xt. rewrite table_length.
      apply (window_in_range self rowbeg nrows Hdt Hm); assumption. }
    split; [apply window_length; [apply table_rows|exact Hin]|].
    split.
    + intros k r Hk Hr.
      rewrite (@window_block _ (length xcs) xt (dt self) (nt self) i k
                 (table_rows xcs rs) Hin Hk).
      apply table_row. exact Hr.
    + intros r Hr. unfold target. apply table_row. exact Hr.
  - intros Hne.
    assert (Hx : map (window xt (dt self) (nt self)) kept <> [])
      by (destruct kept; [congruence|discriminate]).
    assert (Hy : map (target yt tau) kept <> [])
      by (destruct kept; [congruence|discriminate]).
    rewrite (shape_stack _ Hx), (shape_stack _ Hy), !length_map.
    split; [reflexivity|]. split; [reflexivity|].
    intros j s Hj. split; apply row_at_stack; exact Hj.
Qed.

Lemma load_windows_and_targets_witness :
  1 <= dt scenario_nt1 /\
  dt scenario_nt1 * nt scenario_nt1 + fcast scenario_nt1
    < length (read_lines (filename scenario_nt1) 0 None) /\
  exists X Y,
    load scenario_nt1 ["Bz"] ["Dst"] 0 None = Ok (X, Y) /\
    shape X = [2; 1] /\ shape Y = [2; 1] /\
    row_at X 1 = Ok [2%Q] /\ row_at Y 1 = Ok [(-10)%Q].
Proof.
  assert (H1 : 1 <= dt scenario_nt1) by (simpl; lia).
  assert (H2 : dt scenario_nt1 * nt scenario_nt1 + fcast scenario_nt1
               < length (read_lines (filename scenario_nt1) 0 None))
    by (simpl; lia).
  split; [exact H1|]. split; [exact H2|].
  destruct (load_windows_and_targets scenario_nt1 [CBz] [CDst] 0 None H1 H2)
    as [X [Y [Hload [_ Hkept]]]].
  exists X, Y. split; [exact Hload|].
  destruct (Hkept ltac:(vm_compute; discriminate)) as [HX [HY Hrow]].
  split; [exact HX|]. split; [exact HY|].
  exact (Hrow 1 2 eq_refl).
Defined.

(** C1 as stated fails when no window is kept: the outputs are then the
    empty 1-D array of shape (0,), not 2-D arrays of shapes (0, nt*|xcols|)
    and (0, |ycols|). *)
Lemma load_shape_counterexample :
  exists X Y,
    load scenario ["Bz"] ["Dst"] 0 None = Ok (X, Y) /\
    shape X <> [0; nt scenario * 1] /\ shape Y <> [0; 1] /\
    ndim X = 1 /\ ndim Y = 1.
Proof.
  exists (Arr1 []), (Arr1 []).
  split; [vm_compute; reflexivity|].
  repeat split; simpl; discriminate.
Qed.

(** C2. For dt >= 1 and a range with at least one candidate, a candidate
    start i < m is among the kept pairs of [load]'s output exactly when
    every value it uses is a measurement: the nt strided window rows in all
    x-columns and the target row in all y-columns differ from the sentinel
    of their column.  The output is the stack of the windows and targets of
    the kept starts, so a window that touches a sentinel is absent. *)
Theorem load_keeps_valid_pairs (self : omnidata) (xcs ycs : list column)
    (rowbeg : nat) (nrows : option nat) :
  let rs := read_lines (filename self) rowbeg nrows in
  let tau := dt self * nt self + fcast self in
  1 <= dt self -> tau < length rs ->
  exists kept,
    load self (map col_name xcs) (map col_name ycs) rowbeg nrows
    = Ok (stack (nt self * length xcs)
            (map (window (table xcs rs) (dt self) (nt self)) kept),
          stack (length ycs) (map (target (table ycs rs) tau) kept)) /\
    NoDup kept /\
    forall i, In i kept <->
      i < length rs - tau /\ valid_start xcs ycs rs (dt self) (nt self) tau i.
Proof.
  intros rs tau Hdt Hm.
  exists (kept_starts (mask_of xcs rs) (mask_of ycs rs)
            (dt self) (nt self) tau (length rs - tau)).
  split; [apply (load_ok self xcs ycs rowbeg nrows Hdt Hm)|].
  split.
  - unfold kept_starts. apply NoDup_filter. apply seq_NoDup.
  - intros i. apply (kept_starts_iff self xcs ycs rs i Hdt Hm).
Qed.

Lemma load_keeps_valid_pairs_witness :
  1 <= dt scenario_nt1 /\
  dt scenario_nt1 * nt scenario_nt1 + fcast scenario_nt1
    < length (read_lines (filename scenario_nt1) 0 None) /\
  exists kept,
    load scenario_nt1 ["Bz"] ["Dst"] 0 None
    = Ok (stack 1 (map (window (table [CBz] (filename scenario_nt1)) 1 1) kept),
          stack 1 (map (target (table [CDst] (filename scenario_nt1)) 1) kept)) /\
    (In 1 kept <->
       1 < 3 /\ valid_start [CBz] [CDst] (filename scenario_nt1) 1 1 1 1).
Proof.
  assert (H1 : 1 <= dt scenario_nt1) by (simpl; lia).
  assert (H2 : dt scenario_nt1 * nt scenario_nt1 + fcast scenario_nt1
               < length (read_lines (filename scenario_nt1) 0 None))
    by (simpl; lia).
  split; [exact H1|]. split; [exact H2|].
  destruct (load_keeps_valid_pairs scenario_nt1 [CBz] [CDst] 0 None H1 H2)
    as [kept [Hload [_ Hiff]]].
  exists kept. split; [exact Hload|]. exact (Hiff 1).
Defined.

(** C3. For dt >= 1 and a range of R rows with m = R - (dt*nt + fcast) at
    least 1, [load] returns two arrays of the same length, at most m, and
    exactly m when no sentinel appears in the rows and columns read. *)
Theorem load_window_count (self : omnidata) (xcs ycs : list column)
    (rowbeg : nat) (nrows : option nat) :
  let rs := read_lines (filename self) rowbeg nrows in
  let tau := dt self * nt self + fcast self in
  1 <= dt self -> tau < length rs ->
  exists X Y,
    load self (map col_name xcs) (map col_name ycs) rowbeg nrows = Ok (X, Y) /\
    len X = len Y /\
    len X <= length rs - tau /\
    ((forall r, In r rs ->
        (forall c, In c xcs -> measured c (col_get c r)) /\
        (forall c, In c ycs -> measured c (col_get c r))) ->
     len X = length rs - tau).
Proof.
  intros rs tau Hdt Hm.
  set (kept := kept_starts (mask_of xcs rs) (mask_of ycs rs)
                 (dt self) (nt self) tau (length rs - tau)).
  exists (stack (nt self * length xcs)
            (map (window (table xcs rs) (dt self) (nt self)) kept)),
         (stack (length ycs) (map (target (table ycs rs) tau) kept)).
  split; [apply (load_ok self xcs ycs rowbeg nrows Hdt Hm)|].
  rewrite !len_stack, !length_map.
  split; [reflexivity|]. split.
  - unfold kept, kept_starts.
    etransitivity; [apply filter_length_le|]. rewrite length_seq. apply Nat.le_refl.
  - intros Hclean. unfold kept, kept_starts. rewrite filter_all_seq.
    + apply length_seq.
    + intros i Hi. apply keep_valid.
      * intros k Hk. apply (window_in_range self rowbeg nrows Hdt Hm); assumption.
      * lia.
      * split.
        -- intros k r c _ Hr Hc. apply nth_error_In in Hr.
           apply (proj1 (Hclean r Hr) c Hc).
        -- intros r c Hr Hc. apply nth_error_In in Hr.
           apply (proj2 (Hclean r Hr) c Hc).
Qed.

Lemma load_window_count_witness :
  1 <= dt scenario_nt1 /\
  dt scenario_nt1 * nt scenario_nt1 + fcast scenario_nt1
    < length (read_lines (filename scenario_nt1) 0 None) /\
  exists X Y,
    load scenario_nt1 ["Np"] ["Dst"] 0 None = Ok (X, Y) /\
    len X = len Y /\ len X <= 3 /\ len X = 3.
Proof.
  assert (H1 : 1 <= dt scenario_nt1) by (simpl; lia).
  assert (H2 : dt scenario_nt1 * nt scenario_nt1 + fcast scenario_nt1
               < length (read_lines (filename scenario_nt1) 0 None))
    by (simpl; lia).
  split; [exact H1|]. split; [exact H2|].
  destruct (load_window_count scenario_nt1 [CNp] [CDst] 0 None H1 H2)
    as [X [Y [Hload [Heq [Hle Hall]]]]].
  exists X, Y. split; [exact Hload|]. split; [exact Heq|]. split; [exact Hle|].
  apply Hall. intros r Hr. simpl in Hr.
  assert (Hm : forall c, In c [CNp] \/ In c [CDst] -> measured c (col_get c r)).
  { intros c Hc s Hs E.
    assert (Hb : ne_null (col_get c r) (sentinel c) = true).
    { destruct Hr as [Hr|[Hr|[Hr|[Hr|[]]]]]; subst r;
        destruct Hc as [[Hc|[]]|[Hc|[]]]; subst c; reflexivity. }
    apply ne_null_measured in Hb. exact (Hb s Hs E). }
  split; intros c Hc; apply Hm; [left|right]; exact Hc.
Defined.

(** C4: the code on a range with fewer rows than tau.  The four lines of
    the scenario read with the default configuration (dt=1, nt=5, fcast=1,
    tau = 6) give m = -2: [load] does not return two empty arrays, the
    reduction [Xmask.all(axis=1)] of the empty 1-D array raises. *)
Theorem load_short_range_raises :
  load scenario_default ["Bz"] ["Dst"] 0 None = Err AxisError.
Proof. vm_compute. reflexivity. Qed.

(** C5, as amended. For dt >= 1 and a range with at least one candidate,
    the kept windows appear in strictly increasing order of their start
    offsets: output pair j is the window and the target of the j-th kept
    start, which is a candidate at offset at least j, and is offset j
    itself when no candidate is dropped. *)
Theorem load_preserves_order (self : omnidata) (xcs ycs : list column)
    (rowbeg : nat) (nrows : option nat) :
  let rs := read_lines (filename self) rowbeg nrows in
  let tau := dt self * nt self + fcast self in
  let xt := table xcs rs in
  let yt := table ycs rs in
  1 <= dt self -> tau < length rs ->
  exists kept X Y,
    load self (map col_name xcs) (map col_name ycs) rowbeg nrows = Ok (X, Y) /\
    len X = length kept /\ len Y = length kept /\
    StronglySorted lt kept /\
    (forall j s, nth_error kept j = Some s ->
       j <= s < length rs - tau /\
       row_at X j = Ok (window xt (dt self) (nt self) s) /\
       row_at Y j = Ok (target yt tau s)) /\
    ((forall i, i < length rs - tau ->
        valid_start xcs ycs rs (dt self) (nt self) tau i) ->
     kept = seq 0 (length rs - tau)).
Proof.
  intros rs tau xt yt Hdt Hm.
  set (kept := kept_starts (mask_of xcs rs) (mask_of ycs rs)
                 (dt self) (nt self) tau (length rs - tau)).
  exists kept,
         (stack (nt self * length xcs) (map (window xt (dt self) (nt self)) kept)),
         (stack (length ycs) (map (target yt tau) kept)).
  split; [apply (load_ok self xcs ycs rowbeg nrows Hdt Hm)|].
  rewrite !len_stack, !length_map.
  split; [reflexivity|]. split; [reflexivity|].
  assert (Hs : StronglySorted lt kept) by apply kept_starts_sorted.
  split; [exact Hs|]. split.
  - intros j s Hj. split.
    + split; [apply (sorted_nth_ge Hs j Hj)|].
      apply (kept_lt self xcs ycs rowbeg nrows Hdt Hm).
      apply (nth_error_In _ _ Hj).
    + split; apply row_at_stack; exact Hj.
  - intros Hall. unfold kept, kept_starts. apply filter_all_seq.
    intros i Hi. apply keep_valid.
    + intros k Hk. apply (window_in_range self rowbeg nrows Hdt Hm); assumption.
    + lia.
    + apply Hall. exact Hi.
Qed.

Lemma load_preserves_order_witness :
  1 <= dt scenario_nt1 /\
  dt scenario_nt1 * nt scenario_nt1 + fcast scenario_nt1
    < length (read_lines (filename scenario_nt1) 0 None) /\
  exists kept X Y,
    load scenario_nt1 ["Bz"] ["Dst"] 0 None = Ok (X, Y) /\
    len X = length kept /\ StronglySorted lt kept.
Proof.
  assert (H1 : 1 <= dt scenario_nt1) by (simpl; lia).
  assert (H2 : dt scenario_nt1 * nt scenario_nt1 + fcast scenario_nt1
               < length (read_lines (filename scenario_nt1) 0 None))
    by (simpl; lia).
  split; [exact H1|]. split; [exact H2|].
  destruct (load_preserves_order scenario_nt1 [CBz] [CDst] 0 None H1 H2)
    as [kept [X [Y [Hload [HX [_ [Hs _]]]]]]].
  exists kept, X, Y. split; [exact Hload|]. split; [exact HX|exact Hs].
Defined.

(** C5 as stated fails once a candidate is dropped: with one history point
    the window that starts at row 1 holds the Bz sentinel, so output pair 1
    is the window that starts at row 2, not the one that starts at row 1. *)
Lemma load_pair_offset_counterexample :
  exists X Y,
    load scenario_nt1 ["Bz"] ["Dst"] 0 None = Ok (X, Y) /\
    len X = 2 /\
    row_at X 1 = Ok (window (table [CBz] (filename scenario_nt1)) 1 1 2) /\
    ~ (forall j, j < len X ->
         row_at X j = Ok (window (table [CBz] (filename scenario_nt1)) 1 1 j)).
Proof.
  exists (Arr2 (mkMat 1 [[1%Q]; [2%Q]])),
         (Arr2 (mkMat 1 [[(-10)%Q]; [(-10)%Q]])).
  split; [vm_compute; reflexivity|].
  split; [reflexivity|]. split; [reflexivity|].
  intros H. specialize (H 1 ltac:(simpl; lia)). vm_compute in H. discriminate H.
Qed.

(** C9. The scenario of the specification: four lines, the second with the
    Bz sentinel, dt=1, nt=2, fcast=0, xcols=['Bz'], ycols=['Dst'].  The
    candidates are the starts 0 and 1 (start 2 would need the target row 4,
    past the end); both windows hold the sentinel of row 1 and are dropped;
    [load] returns two empty arrays. *)
Theorem load_scenario_empty :
  load scenario ["Bz"] ["Dst"] 0 None = Ok (Arr1 [], Arr1 []) /\
  len (Arr1 (@nil Q)) = 0 /\
  range (Z.of_nat (omni_len scenario)
         - Z.of_nat (dt scenario * nt scenario + fcast scenario)) = [0; 1] /\
  keep (mask_of [CBz] (filename scenario)) (mask_of [CDst] (filename scenario))
       1 2 2 0 = false /\
  keep (mask_of [CBz] (filename scenario)) (mask_of [CDst] (filename scenario))
       1 2 2 1 = false /\
  nth_error (filename scenario) (2 + (dt scenario * nt scenario + fcast scenario))
    = None.
Proof. vm_compute. repeat split; reflexivity. Qed.

(** ** Reductions along the rows *)

Lemma nth_zipw {A B C : Type} (f : A -> B -> C) (a : list A) (b : list B)
    (j : nat) (da : A) (db : B) (d : C) :
  j < length a -> j < length b ->
  nth j (zipw f a b) d = f (nth j a da) (nth j b db).
Proof.
  intros Ha Hb. apply nth_error_nth. apply nth_error_zipw.
  - apply nth_error_nth'. exact Ha.
  - apply nth_error_nth'. exact Hb.
Qed.

Lemma fold_zipw_length {A : Type} (f : A -> A -> A) (c : nat) (rs : list (list A))
    (acc : list A) :
  Forall (fun r => length r = c) rs -> length acc = c ->
  length (fold_left (zipw f) rs acc) = c.
Proof.
  intros H. revert acc. induction H as [|r rs Hr _ IH]; intros acc Hacc; simpl.
  - exact Hacc.
  - apply IH. rewrite zipw_length; lia.
Qed.

Lemma fold_zipw_nth {A : Type} (f : A -> A -> A) (d : A) (c : nat)
    (rs : list (list A)) (acc : list A) (j : nat) :
  Forall (fun r => length r = c) rs -> length acc = c -> j < c ->
  nth j (fold_left (zipw f) rs acc) d
  = fold_left f (map (fun r => nth j r d) rs) (nth j acc d).
Proof.
  intros H. revert acc. induction H as [|r rs Hr _ IH]; intros acc Hacc Hj; simpl.
  - reflexivity.
  - rewrite IH; [|rewrite zipw_length; lia|exact Hj].
    rewrite (nth_zipw f acc r d d d) by lia. reflexivity.
Qed.

Lemma Qmax_cases (a b : Q) : Qmax a b = a \/ Qmax a b = b.
Proof.
  unfold Qmax, GenericMinMax.gmax. destruct (a ?= b)%Q; auto.
Qed.

Lemma Qmin_cases (a b : Q) : Qmin a b = a \/ Qmin a b = b.
Proof.
  unfold Qmin, GenericMinMax.gmin. destruct (a ?= b)%Q; auto.
Qed.

Lemma fold_Qmax_spec (l : list Q) (a : Q) :
  In (fold_left Qmax l a) (a :: l) /\
  forall v, In v (a :: l) -> (v <= fold_left Qmax l a)%Q.
Proof.
  revert a. induction l as [|b l IH]; intros a; simpl.
  - split; [left; reflexivity|].
    intros v [E|[]]. subst v. apply Qle_refl.
  - destruct (IH (Qmax a b)) as [Hin Hle]. split.
    + destruct Hin as [E|Hin]; [|right; right; exact Hin].
      rewrite <- E. destruct (Qmax_cases a b) as [E'|E']; rewrite E'; auto.
    + intros v [E|[E|Hv]].
      * subst v. eapply Qle_trans; [apply Q.le_max_l|].
        apply Hle. left. reflexivity.
      * subst v. eapply Qle_trans; [apply Q.le_max_r|].
        apply Hle. left. reflexivity.
      * apply Hle. right. exact Hv.
Qed.

Lemma fold_Qmin_spec (l : list Q) (a : Q) :
  In (fold_left Qmin l a) (a :: l) /\
  forall v, In v (a :: l) -> (fold_left Qmin l a <= v)%Q.
Proof.
  revert a. induction l as [|b l IH]; intros a; simpl.
  - split; [left; reflexivity|].
    intros v [E|[]]. subst v. apply Qle_refl.
  - destruct (IH (Qmin a b)) as [Hin Hle]. split.
    + destruct Hin as [E|Hin]; [|right; right; exact Hin].
      rewrite <- E. destruct (Qmin_cases a b) as [E'|E']; rewrite E'; auto.
    + intros v [E|[E|Hv]].
      * subst v. eapply Qle_trans; [|apply Q.le_min_l].
        apply Hle. left. reflexivity.
      * subst v. eapply Qle_trans; [|apply Q.le_min_r].
        apply Hle. left. reflexivity.
      * apply Hle. right. exact Hv.
Qed.

Lemma reduce_axis0_ok (f : Q -> Q -> Q) (x : matrix Q) :
  wf x -> rows x <> [] ->
  exists v, reduce_axis0 f x = Ok v /\ length v = ncols x /\
    forall j, j < ncols x ->
      exists a l, col 0%Q x j = a :: l /\ nth j v 0%Q = fold_left f l a.
Proof.
  intros Hwf Hne. unfold reduce_axis0, col, wf in *.
  destruct (rows x) as [|r rs]; [congruence|].
  inversion Hwf as [|r' rs' Hr Hrs]; subst.
  exists (fold_left (zipw f) rs r).
  split; [reflexivity|].
  split; [apply fold_zipw_length; assumption|].
  intros j Hj. exists (nth j r 0%Q), (map (fun r0 => nth j r0 0%Q) rs).
  split; [reflexivity|].
  apply fold_zipw_nth with (c := ncols x); assumption.
Qed.

Lemma reduce_axis0_length (f : Q -> Q -> Q) (x : matrix Q) (v : list Q) :
  wf x -> reduce_axis0 f x = Ok v -> length v = ncols x.
Proof.
  intros Hwf H. destruct (rows x) as [|r rs] eqn:E.
  - unfold reduce_axis0 in H. rewrite E in H. discriminate.
  - destruct (reduce_axis0_ok f Hwf) as [v' [Hv' [Hlen _]]]; [congruence|].
    congruence.
Qed.

Lemma mean_axis0_length (x : matrix Q) : wf x -> length (mean_axis0 x) = ncols x.
Proof.
  intros Hwf. unfold mean_axis0.
  assert (H : length (fold_left (zipw Qplus) (rows x) (repeat 0%Q (ncols x)))
              = ncols x)
    by (apply fold_zipw_length; [exact Hwf|apply repeat_length]).
  destruct (rows x); rewrite length_map; exact H.
Qed.


(** ** [normalize] over the rationals *)

Lemma wf_map_zipw {A B C : Type} (f : A -> B -> C) (x : matrix A) (b : list B) :
  wf x -> length b = ncols x ->
  wf (mkMat (ncols x) (map (fun r => zipw f r b) (rows x))).
Proof.
  intros Hwf Hb. unfold wf in *. simpl. apply Forall_forall. intros r Hr.
  apply in_map_iff in Hr. destruct Hr as [r0 [<- Hr0]].
  rewrite Forall_forall in Hwf. rewrite zipw_length; rewrite (Hwf r0 Hr0); lia.
Qed.

Lemma param_length (f : Q -> Q -> Q) (x : matrix Q) (P : option (list Q))
    (v : list Q) :
  wf x -> (forall w, P = Some w -> length w = ncols x) ->
  match P with None => reduce_axis0 f x | Some w => Ok w end = Ok v ->
  length v = ncols x.
Proof.
  intros Hwf HP H. destruct P as [w|].
  - inversion H; subst. apply HP. reflexivity.
  - apply (reduce_axis0_length f Hwf H).
Qed.

Lemma mean_length (x : matrix Q) (Mean : option (list Q)) :
  wf x -> (forall w, Mean = Some w -> length w = ncols x) ->
  length (match Mean with None => mean_axis0 x | Some v => map Some v end) = ncols x.
Proof.
  intros Hwf HP. destruct Mean as [w|].
  - rewrite length_map. apply HP. reflexivity.
  - apply mean_axis0_length. exact Hwf.
Qed.

Lemma normalize_inv {R : Type} (rank : R) (x : matrix Q)
    (Max Min Mean : option (list Q)) (xn : matrix (option Q)) (M m : list Q)
    (mu : list (option Q)) :
  wf x ->
  (forall w, Max = Some w -> length w = ncols x) ->
  (forall w, Min = Some w -> length w = ncols x) ->
  (forall w, Mean = Some w -> length w = ncols x) ->
  normalize rank x Max Min Mean = Ok (xn, M, m, mu) ->
  match Max with None => reduce_axis0 Qmax x | Some w => Ok w end = Ok M /\
  match Min with None => reduce_axis0 Qmin x | Some w => Ok w end = Ok m /\
  mu = match Mean with None => mean_axis0 x | Some v => map Some v end /\
  length M = ncols x /\ length m = ncols x /\ length mu = ncols x /\
  xn = mkMat (ncols x)
         (map (fun r => zipw fdiv (zipw fsub r mu) (zipw Qminus M m)) (rows x)).
Proof.
  intros Hwf HMax HMin HMean H. unfold normalize in H.
  destruct (match Max with None => reduce_axis0 Qmax x | Some w => Ok w end)
    as [M'|e] eqn:EM; [|discriminate H].
  destruct (match Min with None => reduce_axis0 Qmin x | Some w => Ok w end)
    as [m'|e] eqn:Em; [|discriminate H].
  cbn [bind] in H.
  assert (LM : length M' = ncols x) by (apply (@param_length Qmax x Max M' Hwf HMax EM)).
  assert (Lm : length m' = ncols x) by (apply (@param_length Qmin x Min m' Hwf HMin Em)).
  assert (Lmu := @mean_length x Mean Hwf HMean).
  rewrite (broadcast2_same fsub _ Hwf Lmu) in H. cbn [bind] in H.
  rewrite broadcast_same in H by lia. cbn [bind] in H.
  rewrite broadcast2_same in H;
    [|apply wf_map_zipw; assumption
     |cbn [ncols]; rewrite zipw_length; lia].
  cbn [bind ncols rows] in H. inversion H; subst.
  repeat split; try assumption. rewrite map_map. reflexivity.
Qed.

Lemma normalize_ok {R : Type} (rank : R) (x : matrix Q)
    (Max Min Mean : option (list Q)) (M m : list Q) :
  wf x ->
  (forall w, Max = Some w -> length w = ncols x) ->
  (forall w, Min = Some w -> length w = ncols x) ->
  (forall w, Mean = Some w -> length w = ncols x) ->
  match Max with None => reduce_axis0 Qmax x | Some w => Ok w end = Ok M ->
  match Min with None => reduce_axis0 Qmin x | Some w => Ok w end = Ok m ->
  let mu := match Mean with None => mean_axis0 x | Some v => map Some v end in
  normalize rank x Max Min Mean
  = Ok (mkMat (ncols x)
          (map (fun r => zipw fdiv (zipw fsub r mu) (zipw Qminus M m)) (rows x)),
        M, m, mu).
Proof.
  intros Hwf HMax HMin HMean EM Em mu. unfold normalize.
  rewrite EM, Em. cbn [bind].
  assert (LM : length M = ncols x) by (apply (@param_length Qmax x Max M Hwf HMax EM)).
  assert (Lm : length m = ncols x) by (apply (@param_length Qmin x Min m Hwf HMin Em)).
  assert (Lmu := @mean_length x Mean Hwf HMean). fold mu in Lmu |- *.
  rewrite (@broadcast2_same _ _ _ fsub x mu Hwf Lmu). cbn [bind].
  rewrite broadcast_same by lia. cbn [bind].
  rewrite broadcast2_same;
    [|apply wf_map_zipw; assumption
     |cbn [ncols]; rewrite zipw_length; lia].
  cbn [bind ncols rows]. rewrite map_map. reflexivity.
Qed.


(** ** The round trip in binary64 *)













(** C10. [normalize] never reads its first parameter: for every x and
    every two values passed as rank, of any types, with the same Max, Min
    and Mean, the two calls return the same. *)
Theorem normalize_ignores_rank {R1 R2 : Type} (r1 : R1) (r2 : R2) (x : matrix Q)
    (Max Min Mean : option (list Q)) :
  normalize r1 x Max Min Mean = normalize r2 x Max Min Mean.
Proof. reflexivity. Qed.

(** * Further properties *)

(** ** Column names that are not in the file *)

Lemma get_loc_missing (cols : list string) (name : string) :
  ~ In name cols -> get_loc cols name = Err KeyError.
Proof.
  induction cols as [|c cols IH]; intros H; simpl; [reflexivity|].
  destruct (String.eqb c name) eqn:E.
  - apply String.eqb_eq in E. exfalso. apply H. left. exact E.
  - rewrite IH; [reflexivity|]. intros Hin. apply H. right. exact Hin.
Qed.

Lemma get_loc_error (cols : list string) (name : string) (e : error) :
  get_loc cols name = Err e -> e = KeyError.
Proof.
  induction cols as [|c cols IH]; simpl; intros H.
  - inversion H. reflexivity.
  - destruct (String.eqb c name); [discriminate H|].
    destruct (get_loc cols name) as [p|e']; [discriminate H|].
    simpl in H. inversion H; subst. apply IH. reflexivity.
Qed.

Lemma mapM_get_loc_missing (frame_cols cols : list string) (name : string) :
  In name cols -> ~ In name frame_cols ->
  mapM (get_loc frame_cols) cols = Err KeyError.
Proof.
  intros Hin Hmiss. induction cols as [|c cols IH]; [contradiction|]. simpl.
  destruct (get_loc frame_cols c) as [p|e] eqn:E.
  - destruct Hin as [Hc|Hin].
    + subst c. rewrite (@get_loc_missing frame_cols name Hmiss) in E. discriminate E.
    + simpl. rewrite (IH Hin). reflexivity.
  - simpl. rewrite (@get_loc_error frame_cols c e E). reflexivity.
Qed.

Lemma names_columns (cols : list string) :
  Forall (fun name => In name headers) cols -> exists cs, cols = map col_name cs.
Proof.
  induction 1 as [|name cols Hn _ [cs IH]].
  - exists []. reflexivity.
  - apply headers_columns in Hn. destruct Hn as [c Hc].
    exists (c :: cs). simpl. congruence.
Qed.

(** X1. [read] with a column name that is not one of the seven headers
    raises KeyError, whatever the lines of the file and the row range that
    starts inside it. *)
Theorem read_unknown_column (self : omnidata) (rowbeg : nat) (nrows : option nat)
    (cols : list string) (name : string) :
  rowbeg < omni_len self ->
  In name cols -> ~ In name headers ->
  read self rowbeg nrows cols = Err KeyError.
Proof.
  intros _ Hin Hmiss. unfold read.
  replace (columns (read_table (filename self) rowbeg nrows)) with headers
    by reflexivity.
  rewrite (@mapM_get_loc_missing headers cols name Hin Hmiss). reflexivity.
Qed.

Lemma read_unknown_column_witness :
  0 < omni_len scenario /\ In "Bx" ["Bz"; "Bx"] /\ ~ In "Bx" headers /\
  read scenario 0 None ["Bz"; "Bx"] = Err KeyError.
Proof.
  assert (H0 : 0 < omni_len scenario) by (vm_compute; lia).
  assert (H1 : In "Bx" ["Bz"; "Bx"]) by (simpl; auto).
  assert (H2 : ~ In "Bx" headers).
  { simpl. intros H.
    repeat (destruct H as [H|H]; [discriminate H|]). exact H. }
  split; [exact H0|]. split; [exact H1|]. split; [exact H2|].
  exact (@read_unknown_column scenario 0 None ["Bz"; "Bx"] "Bx" H0 H1 H2).
Defined.

(** X2. [load] with a feature or target column name that is not one of the
    seven headers raises KeyError, whatever the configuration, the lines of
    the file and the row range that starts inside it: the name is looked up
    before any window is built. *)
Theorem load_unknown_column (self : omnidata) (xcols ycols : list string)
    (rowbeg : nat) (nrows : option nat) (name : string) :
  rowbeg < omni_len self ->
  In name (xcols ++ ycols) -> ~ In name headers ->
  load self xcols ycols rowbeg nrows = Err KeyError.
Proof.
  intros _ Hin Hmiss. unfold load.
  destruct (Forall_Exists_dec (fun n => In n headers)
              (fun n => in_dec string_dec n headers) xcols) as [Hall|Hex].
  - destruct (@names_columns xcols Hall) as [xcs Hx]. subst xcols.
    rewrite read_ok. cbn [bind].
    apply in_app_or in Hin. destruct Hin as [Hin|Hin].
    + exfalso. apply Hmiss. rewrite Forall_forall in Hall. apply Hall. exact Hin.
    + unfold read at 1.
      replace (columns (read_table (filename self) rowbeg nrows)) with headers
        by reflexivity.
      rewrite (@mapM_get_loc_missing headers ycols name Hin Hmiss). reflexivity.
  - apply Exists_exists in Hex. destruct Hex as [n [Hn Hnm]].
    unfold read at 1.
    replace (columns (read_table (filename self) rowbeg nrows)) with headers
      by reflexivity.
    rewrite (@mapM_get_loc_missing headers xcols n Hn Hnm). reflexivity.
Qed.

Lemma load_unknown_column_witness :
  0 < omni_len scenario /\ In "Kp" (["Bz"] ++ ["Kp"]) /\ ~ In "Kp" headers /\
  load scenario ["Bz"] ["Kp"] 0 None = Err KeyError.
Proof.
  assert (H0 : 0 < omni_len scenario) by (vm_compute; lia).
  assert (H1 : In "Kp" (["Bz"] ++ ["Kp"])) by (simpl; auto).
  assert (H2 : ~ In "Kp" headers).
  { simpl. intros H.
    repeat (destruct H as [H|H]; [discriminate H|]). exact H. }
  split; [exact H0|]. split; [exact H1|]. split; [exact H2|].
  exact (@load_unknown_column scenario ["Bz"] ["Kp"] 0 None "Kp" H0 H1 H2).
Defined.

(** ** When [load] returns *)

Lemma load_zero_step (self : omnidata) (xcs ycs : list column) (rowbeg : nat)
    (nrows : option nat) :
  dt self = 0 ->
  fcast self < length (read_lines (filename self) rowbeg nrows) ->
  load self (map col_name xcs) (map col_name ycs) rowbeg nrows = Err ValueError.
Proof.
  intros Hdt Hm. unfold load. rewrite !read_ok. cbn [bind].
  unfold nrows_of, windows, range. cbn [values].
  rewrite table_length, Hdt.
  destruct (Z.to_nat (Z.of_nat (length (read_lines (filename self) rowbeg nrows))
                      - Z.of_nat (0 * nt self + fcast self))) as [|k] eqn:E;
    [lia|].
  reflexivity.
Qed.

(** X3. For column names of the file and a start row inside it, the outcome
    of [load] is decided by the configuration and the number R of rows read,
    with tau = dt*nt + fcast: it returns exactly when dt >= 1 and R > tau; it
    raises AxisError when R <= tau (no candidate window), and ValueError when
    R > tau and dt = 0 (a slice with a zero step). *)
Theorem load_outcome (self : omnidata) (xcs ycs : list column) (rowbeg : nat)
    (nrows : option nat) :
  let R := length (read_lines (filename self) rowbeg nrows) in
  let tau := dt self * nt self + fcast self in
  let result := load self (map col_name xcs) (map col_name ycs) rowbeg nrows in
  rowbeg < omni_len self ->
  ((exists X Y, result = Ok (X, Y)) <-> 1 <= dt self /\ tau < R) /\
  (R <= tau -> result = Err AxisError) /\
  (tau < R -> dt self = 0 -> result = Err ValueError).
Proof.
  intros R tau result _.
  assert (Hshort : R <= tau -> result = Err AxisError)
    by (apply load_no_candidate).
  assert (Hzero : tau < R -> dt self = 0 -> result = Err ValueError).
  { intros Hm Hdt. apply load_zero_step; [exact Hdt|].
    unfold tau in Hm. rewrite Hdt in Hm. exact Hm. }
  split; [|split; assumption].
  split.
  - intros [X [Y HXY]].
    destruct (Nat.le_gt_cases R tau) as [Hle|Hgt].
    + rewrite (Hshort Hle) in HXY. discriminate HXY.
    + destruct (dt self) as [|d] eqn:Hdt.
      * rewrite (Hzero Hgt eq_refl) in HXY. discriminate HXY.
      * split; [lia|exact Hgt].
  - intros [Hdt Hm]. eexists. eexists.
    apply (load_ok self xcs ycs rowbeg nrows Hdt Hm).
Qed.

Lemma load_outcome_witness :
  0 < omni_len scenario_longer /\
  exists X Y, load scenario_longer ["Bz"] ["Dst"] 0 (Some 3) = Ok (X, Y).
Proof.
  assert (H0 : 0 < omni_len scenario_longer) by (vm_compute; lia).
  split; [exact H0|].
  apply (proj1 (@load_outcome scenario_longer [CBz] [CDst] 0 (Some 3) H0)).
  simpl. lia.
Defined.

(** X4. An [omnidata] built without dt, nt and fcast has dt = 1, nt = 5 and
    fcast = 1, so that for column names of the file and a start row inside
    it its [load] returns exactly on ranges of at least seven rows. *)
Theorem default_configuration_rows (file : list row) (xcs ycs : list column)
    (rowbeg : nat) (nrows : option nat) :
  let self := omnidata_init file None None None in
  rowbeg < omni_len self ->
  dt self * nt self + fcast self = 6 /\
  ((exists X Y,
      load self (map col_name xcs) (map col_name ycs) rowbeg nrows = Ok (X, Y))
   <-> 7 <= length (read_lines file rowbeg nrows)).
Proof.
  intros self _. split; [reflexivity|]. split.
  - intros [X [Y HXY]].
    destruct (Nat.le_gt_cases (length (read_lines file rowbeg nrows)) 6)
      as [Hle|Hgt]; [|exact Hgt].
    rewrite (load_no_candidate self xcs ycs rowbeg nrows Hle) in HXY.
    discriminate HXY.
  - intros H. eexists. eexists.
    apply (load_ok self xcs ycs rowbeg nrows); simpl; lia.
Qed.

Lemma default_configuration_rows_witness :
  0 < omni_len (omnidata_init (filename scenario) None None None) /\
  ~ exists X Y,
      load (omnidata_init (filename scenario) None None None)
        ["Bz"] ["Dst"] 0 None = Ok (X, Y).
Proof.
  assert (H0 : 0 < omni_len (omnidata_init (filename scenario) None None None))
    by (vm_compute; lia).
  split; [exact H0|].
  intros H.
  apply (proj2 (@default_configuration_rows (filename scenario) [CBz] [CDst]
                  0 None H0)) in H.
  simpl in H. lia.
Defined.

(** ** The rows of the file a call reads *)

Lemma read_lines_length (file : list row) (rowbeg : nat) (nrows : option nat) :
  length (read_lines file rowbeg nrows)
  = match nrows with
    | Some n => Nat.min n (length file - rowbeg)
    | None => length file - rowbeg
    end.
Proof.
  unfold read_lines. destruct nrows as [n|].
  - rewrite length_firstn, length_skipn. reflexivity.
  - apply length_skipn.
Qed.

Lemma read_lines_nth (file : list row) (rowbeg : nat) (nrows : option nat)
    (i : nat) :
  i < length (read_lines file rowbeg nrows) ->
  nth_error (read_lines file rowbeg nrows) i = nth_error file (rowbeg + i).
Proof.
  intros Hi. rewrite read_lines_length in Hi. unfold read_lines.
  destruct nrows as [n|].
  - rewrite nth_error_firstn.
    assert (E : (i <? n) = true) by (apply Nat.ltb_lt; lia).
    rewrite E. apply nth_error_skipn.
  - apply nth_error_skipn.
Qed.

(** X5. For a start row inside the file, [read] returns as many rows as
    asked for, or as are left in the file ([len()] minus the start row)
    when fewer are left or no count is given; row i of the table holds the
    values of line rowbeg + i of the file in the columns asked for, and row
    i of the mask tells which of them differ from their sentinel. *)
Theorem read_rows_of_file (self : omnidata) (rowbeg : nat) (nrows : option nat)
    (cs : list column) :
  rowbeg < omni_len self ->
  exists tbl mask,
    read self rowbeg nrows (map col_name cs) = Ok (tbl, mask) /\
    nrows_of tbl
    = match nrows with
      | Some n => Nat.min n (omni_len self - rowbeg)
      | None => omni_len self - rowbeg
      end /\
    forall i r,
      i < nrows_of tbl -> nth_error (filename self) (rowbeg + i) = Some r ->
      nth_error (values tbl) i = Some (map (fun c => col_get c r) cs) /\
      nth_error (rows mask) i
      = Some (map (fun c => ne_null (col_get c r) (sentinel c)) cs).
Proof.
  intros _.
  exists (mkFrame (map col_name cs)
            (table cs (read_lines (filename self) rowbeg nrows))),
         (mkMat (length cs) (mask_of cs (read_lines (filename self) rowbeg nrows))).
  split; [apply read_ok|].
  unfold nrows_of, omni_len. cbn [values rows]. rewrite table_length.
  split; [apply read_lines_length|].
  intros i r Hi Hr.
  rewrite <- (@read_lines_nth (filename self) rowbeg nrows i Hi) in Hr.
  split.
  - apply (map_nth_error (fun r => map (fun c => col_get c r) cs)). exact Hr.
  - apply (map_nth_error
             (fun r => map (fun c => ne_null (col_get c r) (sentinel c)) cs)).
    exact Hr.
Qed.

Lemma read_rows_of_file_witness :
  1 < omni_len scenario /\
  exists tbl mask,
    read scenario 1 (Some 2) ["Bz"; "Dst"] = Ok (tbl, mask) /\
    nrows_of tbl = 2 /\
    nth_error (values tbl) 1 = Some [2%Q; (-10)%Q].
Proof.
  assert (H : 1 < omni_len scenario) by (vm_compute; lia).
  split; [exact H|].
  destruct (@read_rows_of_file scenario 1 (Some 2) [CBz; CDst] H)
    as [tbl [mask [Hread [Hn Hrow]]]].
  exists tbl, mask. split; [exact Hread|]. split; [exact Hn|].
  apply (Hrow 1 (mkRow 2000 1 2 2 5 400 (-10))%Q); [rewrite Hn; simpl; lia|].
  reflexivity.
Defined.

(** ** No sentinel in the output *)

Lemma row_at_stack_inv {A : Type} (c : nat) (w : nat -> list A) (l : list nat)
    (j : nat) (r : list A) :
  row_at (stack c (map w l)) j = Ok r ->
  exists s, nth_error l j = Some s /\ r = w s.
Proof.
  destruct l as [|a l]; [discriminate|].
  unfold stack. cbn [map row_at rows]. unfold lookup.
  change (w a :: map w l) with (map w (a :: l)).
  rewrite nth_error_map.
  destruct (nth_error (a :: l) j) as [s|]; simpl; intros H; [|discriminate H].
  exists s. split; [reflexivity|]. congruence.
Qed.

Lemma window_cell (cs : list column) (rs : list row) (step n s k i : nat)
    (c : column) (v : Q) :
  (forall k, k < n -> s + k * step < length rs) -> k < n ->
  nth_error cs i = Some c ->
  nth_error (window (table cs rs) step n s) (k * length cs + i) = Some v ->
  exists r, nth_error rs (s + k * step) = Some r /\ v = col_get c r.
Proof.
  intros Hin Hk Hc Hv.
  assert (Hi : i < length cs) by (apply nth_error_Some; congruence).
  assert (Hin' : forall k, k < n -> s + k * step < length (table cs rs))
    by (intros k' Hk'; rewrite table_length; apply Hin; exact Hk').
  assert (Hb := @window_block _ (length cs) (table cs rs) step n s k
                  (table_rows cs rs) Hin' Hk).
  assert (E : nth_error (firstn (length cs)
                           (skipn (k * length cs) (window (table cs rs) step n s))) i
              = Some v).
  { rewrite nth_error_firstn.
    assert (Hlt : (i <? length cs) = true) by (apply Nat.ltb_lt; exact Hi).
    rewrite Hlt, nth_error_skipn. exact Hv. }
  rewrite Hb in E.
  destruct (nth_error rs (s + k * step)) as [r|] eqn:Hr.
  - exists r. split; [reflexivity|].
    rewrite (table_row cs rs _ Hr) in E.
    rewrite (map_nth_error (fun c => col_get c r) _ _ Hc) in E. congruence.
  - apply nth_error_None in Hr. specialize (Hin k Hk). lia.
Qed.

(** X7. For dt >= 1 and a range with at least one candidate, no sentinel
    ever reaches the output of [load]: in every row of X, the value at
    position k*|xcols| + i (history point k, i-th feature column) differs
    from the sentinel of that column, and in every row of Y the i-th value
    differs from the sentinel of the i-th target column. *)
Theorem load_output_measured (self : omnidata) (xcs ycs : list column)
    (rowbeg : nat) (nrows : option nat) :
  let rs := read_lines (filename self) rowbeg nrows in
  let tau := dt self * nt self + fcast self in
  1 <= dt self -> tau < length rs ->
  exists X Y,
    load self (map col_name xcs) (map col_name ycs) rowbeg nrows = Ok (X, Y) /\
    (forall j w, row_at X j = Ok w ->
       forall k i c v, k < nt self -> nth_error xcs i = Some c ->
         nth_error w (k * length xcs + i) = Some v -> measured c v) /\
    (forall j t, row_at Y j = Ok t ->
       forall i c v, nth_error ycs i = Some c ->
         nth_error t i = Some v -> measured c v).
Proof.
  intros rs tau Hdt Hm.
  set (kept := kept_starts (mask_of xcs rs) (mask_of ycs rs)
                 (dt self) (nt self) tau (length rs - tau)).
  exists (stack (nt self * length xcs)
            (map (window (table xcs rs) (dt self) (nt self)) kept)),
         (stack (length ycs) (map (target (table ycs rs) tau) kept)).
  split; [apply (load_ok self xcs ycs rowbeg nrows Hdt Hm)|].
  assert (Hkept : forall j s, nth_error kept j = Some s ->
            s < length rs - tau /\
            valid_start xcs ycs rs (dt self) (nt self) tau s).
  { intros j s Hs. apply (kept_starts_iff self xcs ycs rs s Hdt Hm).
    apply (nth_error_In _ _ Hs). }
  split.
  - intros j w Hw k i c v Hk Hc Hv.
    apply row_at_stack_inv in Hw. destruct Hw as [s [Hs Ew]]. subst w.
    destruct (Hkept j s Hs) as [Hlt [Hx _]].
    assert (Hin : forall k, k < nt self -> s + k * dt self < length rs)
      by (intros k' Hk';
          apply (window_in_range self rowbeg nrows Hdt Hm); assumption).
    destruct (@window_cell xcs rs (dt self) (nt self) s k i c v Hin Hk Hc Hv)
      as [r [Hr Ev]].
    subst v. apply (Hx k r c Hk Hr). apply (nth_error_In _ _ Hc).
  - intros j t Ht i c v Hc Hv.
    apply row_at_stack_inv in Ht. destruct Ht as [s [Hs Et]]. subst t.
    destruct (Hkept j s Hs) as [Hlt [_ Hy]].
    destruct (nth_error rs (s + tau)) as [r|] eqn:Hr.
    + unfold target in Hv. rewrite (table_row ycs rs _ Hr) in Hv.
      rewrite (map_nth_error (fun c => col_get c r) _ _ Hc) in Hv.
      inversion Hv; subst. apply (Hy r c eq_refl). apply (nth_error_In _ _ Hc).
    + apply nth_error_None in Hr. lia.
Qed.

Lemma load_output_measured_witness :
  1 <= dt scenario_nt1 /\
  dt scenario_nt1 * nt scenario_nt1 + fcast scenario_nt1
    < length (read_lines (filename scenario_nt1) 0 None) /\
  exists X Y,
    load scenario_nt1 ["Bz"] ["Dst"] 0 None = Ok (X, Y) /\
    forall j w, row_at X j = Ok w ->
      forall v, nth_error w 0 = Some v -> measured CBz v.
Proof.
  assert (H1 : 1 <= dt scenario_nt1) by (simpl; lia).
  assert (H2 : dt scenario_nt1 * nt scenario_nt1 + fcast scenario_nt1
               < length (read_lines (filename scenario_nt1) 0 None))
    by (simpl; lia).
  split; [exact H1|]. split; [exact H2|].
  destruct (@load_output_measured scenario_nt1 [CBz] [CDst] 0 None H1 H2)
    as [X [Y [Hload [HX _]]]].
  exists X, Y. split; [exact Hload|].
  intros j w Hw v Hv.
  apply (HX j w Hw 0 0 CBz v); [simpl; lia|reflexivity|exact Hv].
Defined.

(** ** Constant columns, stacked inputs and parameter widths *)

Lemma column_extremes (x : matrix Q) (M m : list Q) (j : nat) :
  wf x -> rows x <> [] -> j < ncols x ->
  reduce_axis0 Qmax x = Ok M -> reduce_axis0 Qmin x = Ok m ->
  (In (nth j M 0%Q) (col 0%Q x j) /\
   forall v, In v (col 0%Q x j) -> (v <= nth j M 0)%Q) /\
  (In (nth j m 0%Q) (col 0%Q x j) /\
   forall v, In v (col 0%Q x j) -> (nth j m 0 <= v)%Q).
Proof.
  intros Hwf Hne Hj EM Em. split.
  - destruct (@reduce_axis0_ok Qmax x Hwf Hne) as [v [Hv [_ Hcol]]].
    assert (v = M) by congruence. subst v.
    destruct (Hcol j Hj) as [a [l [Ecol Enth]]].
    rewrite Ecol, Enth. apply fold_Qmax_spec.
  - destruct (@reduce_axis0_ok Qmin x Hwf Hne) as [v [Hv [_ Hcol]]].
    assert (v = m) by congruence. subst v.
    destruct (Hcol j Hj) as [a [l [Ecol Enth]]].
    rewrite Ecol, Enth. apply fold_Qmin_spec.
Qed.

(** X9. A column of x whose entries are all equal has max = min when both
    are computed from x, so [normalize] divides by zero there: every cell of
    that column in the normalised array is non-finite, whatever the mean. *)
Theorem normalize_constant_column {R : Type} (rank : R) (x : matrix Q)
    (Mean : option (list Q)) (j : nat) :
  wf x -> rows x <> [] -> j < ncols x ->
  (forall w, Mean = Some w -> length w = ncols x) ->
  (forall v w, In v (col 0%Q x j) -> In w (col 0%Q x j) -> (v == w)%Q) ->
  exists xn M m mu,
    normalize rank x None None Mean = Ok (xn, M, m, mu) /\
    length (rows xn) = length (rows x) /\
    forall i r', nth_error (rows xn) i = Some r' -> nth_error r' j = Some None.
Proof.
  intros Hwf Hne Hj HMean Hconst.
  assert (Hw : forall w : list Q, @None (list Q) = Some w -> length w = ncols x)
    by (intros w E; discriminate E).
  destruct (@reduce_axis0_ok Qmax x Hwf Hne) as [M [EM [LM _]]].
  destruct (@reduce_axis0_ok Qmin x Hwf Hne) as [m [Em [Lm _]]].
  set (mu := match Mean with None => mean_axis0 x | Some v => map Some v end).
  assert (Lmu : length mu = ncols x) by (apply (@mean_length x Mean Hwf HMean)).
  destruct (@column_extremes x M m j Hwf Hne Hj EM Em) as [[HMin _] [Hmin _]].
  assert (Hzero : Qeq_bool (nth j M 0 - nth j m 0)%Q 0%Q = true).
  { apply Qeq_bool_iff. assert (E := Hconst _ _ HMin Hmin). lra. }
  eexists. exists M, m, mu.
  split; [apply (@normalize_ok R rank x None None Mean M m Hwf Hw Hw HMean EM Em)|].
  cbn [rows]. split; [apply length_map|].
  intros i r' Hr'. rewrite nth_error_map in Hr'.
  destruct (nth_error (rows x) i) as [r|] eqn:Hr; [|discriminate Hr'].
  simpl in Hr'. inversion Hr'; subst r'.
  assert (Lr : length r = ncols x).
  { unfold wf in Hwf. rewrite Forall_forall in Hwf.
    apply Hwf. apply (nth_error_In _ _ Hr). }
  assert (E : nth_error (zipw fdiv (zipw fsub r mu) (zipw Qminus M m)) j
              = Some (fdiv (fsub (nth j r 0%Q) (nth j mu None))
                        (nth j M 0 - nth j m 0)%Q)).
  { apply nth_error_zipw; apply nth_error_zipw; apply nth_error_nth'; lia. }
  fold mu. rewrite E. unfold fdiv. rewrite Hzero.
  destruct (fsub (nth j r 0%Q) (nth j mu None)); reflexivity.
Qed.

Lemma normalize_constant_column_witness :
  wf flat_samples /\ rows flat_samples <> [] /\ 1 < ncols flat_samples /\
  exists xn M m mu,
    normalize tt flat_samples None None None = Ok (xn, M, m, mu) /\
    forall i r', nth_error (rows xn) i = Some r' -> nth_error r' 1 = Some None.
Proof.
  assert (Hwf : wf flat_samples) by (repeat constructor).
  assert (Hne : rows flat_samples <> []) by discriminate.
  assert (Hj : 1 < ncols flat_samples) by (simpl; lia).
  assert (Hw : forall w : list Q,
             @None (list Q) = Some w -> length w = ncols flat_samples)
    by (intros w E; discriminate E).
  assert (Hc : forall v w, In v (col 0%Q flat_samples 1) ->
                 In w (col 0%Q flat_samples 1) -> (v == w)%Q).
  { intros v w Hv Hw'. simpl in Hv, Hw'.
    destruct Hv as [Hv|[Hv|[Hv|[]]]]; destruct Hw' as [Hw'|[Hw'|[Hw'|[]]]];
      subst; reflexivity. }
  split; [exact Hwf|]. split; [exact Hne|]. split; [exact Hj|].
  destruct (@normalize_constant_column unit tt flat_samples None 1
              Hwf Hne Hj Hw Hc) as [xn [M [m [mu [Hn [_ Hcell]]]]]].
  exists xn, M, m, mu. split; [exact Hn|exact Hcell].
Defined.

(** X10. With the three parameters supplied, [normalize] works row by row:
    the normalised array of two inputs stacked one above the other is the
    stack of their normalised arrays, with the same parameters returned, so
    that data normalised apart with the same statistics is normalised
    consistently. *)
Theorem normalize_stacked_rows {R : Type} (rank : R) (c : nat)
    (rows1 rows2 : list (list Q)) (M m mu : list Q) :
  Forall (fun r => length r = c) rows1 -> Forall (fun r => length r = c) rows2 ->
  length M = c -> length m = c -> length mu = c ->
  exists a b,
    normalize rank (mkMat c rows1) (Some M) (Some m) (Some mu)
    = Ok (mkMat c a, M, m, map Some mu) /\
    normalize rank (mkMat c rows2) (Some M) (Some m) (Some mu)
    = Ok (mkMat c b, M, m, map Some mu) /\
    normalize rank (mkMat c (rows1 ++ rows2)) (Some M) (Some m) (Some mu)
    = Ok (mkMat c (a ++ b), M, m, map Some mu).
Proof.
  intros H1 H2 LM Lm Lmu.
  assert (HwM : forall w, Some M = Some w -> length w = c)
    by (intros w E; injection E as E'; rewrite <- E'; exact LM).
  assert (Hwm : forall w, Some m = Some w -> length w = c)
    by (intros w E; injection E as E'; rewrite <- E'; exact Lm).
  assert (Hwu : forall w, Some mu = Some w -> length w = c)
    by (intros w E; injection E as E'; rewrite <- E'; exact Lmu).
  assert (H12 : Forall (fun r => length r = c) (rows1 ++ rows2))
    by (apply Forall_app; split; assumption).
  exists (map (fun r => zipw fdiv (zipw fsub r (map Some mu)) (zipw Qminus M m)) rows1),
         (map (fun r => zipw fdiv (zipw fsub r (map Some mu)) (zipw Qminus M m)) rows2).
  split; [|split].
  - apply (@normalize_ok R rank (mkMat c rows1) (Some M) (Some m) (Some mu) M m
             H1 HwM Hwm Hwu eq_refl eq_refl).
  - apply (@normalize_ok R rank (mkMat c rows2) (Some M) (Some m) (Some mu) M m
             H2 HwM Hwm Hwu eq_refl eq_refl).
  - rewrite <- map_app.
    apply (@normalize_ok R rank (mkMat c (rows1 ++ rows2)) (Some M) (Some m)
             (Some mu) M m H12 HwM Hwm Hwu eq_refl eq_refl).
Qed.

Lemma normalize_stacked_rows_witness :
  Forall (fun r => length r = 2) [[1; 5]; [3; 6]]%Q /\
  Forall (fun r => length r = 2) [[2; 7]]%Q /\
  exists a b,
    normalize tt (mkMat 2 [[1; 5]; [3; 6]]%Q)
      (Some [3; 7]%Q) (Some [1; 5]%Q) (Some [2; 6]%Q)
    = Ok (mkMat 2 a, [3; 7]%Q, [1; 5]%Q, map Some [2; 6]%Q) /\
    normalize tt samples (Some [3; 7]%Q) (Some [1; 5]%Q) (Some [2; 6]%Q)
    = Ok (mkMat 2 (a ++ b), [3; 7]%Q, [1; 5]%Q, map Some [2; 6]%Q).
Proof.
  assert (H1 : Forall (fun r => length r = 2) [[1; 5]; [3; 6]]%Q)
    by (repeat constructor).
  assert (H2 : Forall (fun r => length r = 2) [[2; 7]]%Q) by (repeat constructor).
  split; [exact H1|]. split; [exact H2|].
  destruct (@normalize_stacked_rows unit tt 2 [[1; 5]; [3; 6]]%Q [[2; 7]]%Q
              [3; 7]%Q [1; 5]%Q [2; 6]%Q H1 H2 eq_refl eq_refl eq_refl)
    as [a [b [Ha [_ Hab]]]].
  exists a, b. split; [exact Ha|exact Hab].
Defined.

Lemma bdim_mismatch (c k : nat) :
  c <> k -> k <> 1 -> c <> 1 -> bdim c k = Err ValueError.
Proof.
  intros H1 H2 H3. unfold bdim.
  destruct (c =? k) eqn:E1; [apply Nat.eqb_eq in E1; contradiction|].
  destruct (k =? 1) eqn:E2; [apply Nat.eqb_eq in E2; contradiction|].
  destruct (c =? 1) eqn:E3; [apply Nat.eqb_eq in E3; contradiction|].
  reflexivity.
Qed.

(** X11. A mean whose width is neither the column count of x nor 1 cannot be
    broadcast against x (when x has more than one column or none):
    [normalize] raises ValueError, whatever Max and Min are. *)
Theorem normalize_mean_width_mismatch {R : Type} (rank : R) (x : matrix Q)
    (Max Min : option (list Q)) (w : list Q) :
  ncols x <> 1 -> length w <> 1 -> length w <> ncols x ->
  normalize rank x Max Min (Some w) = Err ValueError.
Proof.
  intros Hc Hw Hcw. unfold normalize.
  destruct Max as [M|]; destruct Min as [m|]; unfold reduce_axis0;
    destruct (rows x) as [|r rs]; cbn [bind]; try reflexivity;
    unfold broadcast2; rewrite length_map;
    rewrite bdim_mismatch by congruence; reflexivity.
Qed.

Lemma normalize_mean_width_mismatch_witness :
  normalize tt samples None None (Some [1; 2; 3]%Q) = Err ValueError.
Proof.
  apply (@normalize_mean_width_mismatch unit tt samples None None [1; 2; 3]%Q);
    simpl; lia.
Defined.

Lemma map_nth_seq {A : Type} (l : list A) (d : A) :
  map (fun j => nth j l d) (seq 0 (length l)) = l.
Proof.
  induction l as [|a l IH]; [reflexivity|].
  simpl. f_equal. rewrite <- seq_shift, map_map. exact IH.
Qed.

Lemma bdim_one (c : nat) : bdim c 1 = Ok c.
Proof.
  unfold bdim. destruct (c =? 1) eqn:E; [|reflexivity].
  apply Nat.eqb_eq in E. subst c. reflexivity.
Qed.

Lemma broadcast_scalar {A B C : Type} (f : A -> B -> C) (a : list A) (b : B) :
  broadcast f a [b] = Ok (map (fun v => f v b) a).
Proof.
  unfold broadcast. cbn [length]. rewrite bdim_one. cbn [bind].
  destruct a as [|x a]; [reflexivity|].
  rewrite <- (map_nth_seq (x :: a) x) at 2. rewrite map_map.
  apply mapM_ok. intros j Hj. apply in_seq in Hj.
  rewrite (bget_nth (x :: a) x) by lia. reflexivity.
Qed.

Lemma broadcast2_scalar {A B C : Type} (f : A -> B -> C) (x : matrix A) (b : B) :
  broadcast2 f x [b]
  = Ok (mkMat (ncols x) (map (map (fun v => f v b)) (rows x))).
Proof.
  unfold broadcast2. cbn [length]. rewrite bdim_one. cbn [bind].
  rewrite (mapM_ok _ (map (fun v => f v b))); [reflexivity|].
  intros r _. apply broadcast_scalar.
Qed.

(** X12. Parameters of one entry apply to every column: with the 1-D arrays
    Max = [a], Min = [b] and Mean = [c], [normalize] returns on every 2-D array x, with
    cell (v - c) / (a - b) for every cell v of x (non-finite when a = b) and
    the three parameters as given. *)
Theorem normalize_scalar_parameters {R : Type} (rank : R) (x : matrix Q)
    (a b c : Q) :
  normalize rank x (Some [a]) (Some [b]) (Some [c])
  = Ok (mkMat (ncols x)
          (map (map (fun v => fdiv (Some (v - c)%Q) (a - b)%Q)) (rows x)),
        [a], [b], [Some c]).
Proof.
  unfold normalize. cbn [bind map].
  rewrite broadcast2_scalar. cbn [bind].
  rewrite broadcast_scalar. cbn [bind map].
  rewrite broadcast2_scalar. cbn [bind ncols rows].
  rewrite map_map. do 5 f_equal.
  apply map_ext. intros r. rewrite map_map. reflexivity.
Qed.

(** ** Reading a longer range *)

Lemma read_lines_prefix (file : list row) (rowbeg n : nat) (nrows2 : option nat) :
  (forall n2, nrows2 = Some n2 -> n <= n2) ->
  read_lines file rowbeg (Some n) = firstn n (read_lines file rowbeg nrows2).
Proof.
  intros H. unfold read_lines. destruct nrows2 as [n2|]; [|reflexivity].
  rewrite firstn_firstn. rewrite Nat.min_l by (apply H; reflexivity).
  reflexivity.
Qed.

Lemma nth_firstn_lt {A : Type} (n j : nat) (l : list A) (d : A) :
  j < length (firstn n l) -> nth j (firstn n l) d = nth j l d.
Proof.
  intros H. rewrite <- (firstn_skipn n l) at 2.
  symmetry. apply app_nth1. exact H.
Qed.

Lemma window_prefix {A : Type} (t : list (list A)) (n step cnt i : nat) :
  (forall k, k < cnt -> i + k * step < length (firstn n t)) ->
  window (firstn n t) step cnt i = window t step cnt i.
Proof.
  intros H. unfold window. f_equal. apply map_ext_in.
  intros k Hk. apply in_seq in Hk. apply nth_firstn_lt. apply H. lia.
Qed.

Lemma target_prefix {A : Type} (t : list (list A)) (n tau i : nat) :
  i + tau < length (firstn n t) ->
  target (firstn n t) tau i = target t tau i.
Proof. intros H. unfold target. apply nth_firstn_lt. exact H. Qed.

Lemma kept_starts_prefix (xm ym : list (list bool)) (n step cnt tau m1 m2 : nat) :
  length (firstn n xm) = length (firstn n ym) ->
  1 <= step -> step * cnt <= tau ->
  m1 = length (firstn n xm) - tau -> m1 <= m2 ->
  kept_starts xm ym step cnt tau m2
  = (kept_starts (firstn n xm) (firstn n ym) step cnt tau m1
     ++ filter (keep xm ym step cnt tau) (seq m1 (m2 - m1)))%list.
Proof.
  intros Hlen Hstep Htau Hm1 Hle. unfold kept_starts.
  replace m2 with (m1 + (m2 - m1)) at 1 by lia.
  rewrite seq_app, filter_app. f_equal.
  apply filter_ext_in. intros i Hi. apply in_seq in Hi.
  unfold keep. rewrite window_prefix, target_prefix; [reflexivity| |].
  - rewrite <- Hlen. lia.
  - intros k Hk. nia.
Qed.

(** X13. Reading more lines only appends pairs: for dt >= 1 and a range of n
    lines that holds at least one candidate, the windows and targets [load]
    returns for that range are, in the same order, the first windows and
    targets it returns for any longer range that starts at the same line. *)
Theorem load_longer_range (self : omnidata) (xcs ycs : list column)
    (rowbeg n : nat) (nrows2 : option nat) :
  let tau := dt self * nt self + fcast self in
  1 <= dt self ->
  tau < length (read_lines (filename self) rowbeg (Some n)) ->
  (forall n2, nrows2 = Some n2 -> n <= n2) ->
  exists X1 Y1 X2 Y2,
    load self (map col_name xcs) (map col_name ycs) rowbeg (Some n)
    = Ok (stack (nt self * length xcs) X1, stack (length ycs) Y1) /\
    load self (map col_name xcs) (map col_name ycs) rowbeg nrows2
    = Ok (stack (nt self * length xcs) (X1 ++ X2),
          stack (length ycs) (Y1 ++ Y2)) /\
    length X1 = length Y1 /\ length X2 = length Y2.
Proof.
  intros tau Hdt Hm Hn.
  set (rs1 := read_lines (filename self) rowbeg (Some n)) in *.
  set (rs2 := read_lines (filename self) rowbeg nrows2).
  assert (E : rs1 = firstn n rs2) by (apply read_lines_prefix; exact Hn).
  assert (Hlen : length rs1 <= length rs2).
  { rewrite E, length_firstn. apply Nat.le_min_r. }
  assert (Hm2 : tau < length rs2) by lia.
  set (m1 := length rs1 - tau).
  set (kept1 := kept_starts (mask_of xcs rs1) (mask_of ycs rs1)
                  (dt self) (nt self) tau m1).
  set (rest := filter (keep (mask_of xcs rs2) (mask_of ycs rs2)
                         (dt self) (nt self) tau)
                 (seq m1 (length rs2 - tau - m1))).
  assert (Ek : kept_starts (mask_of xcs rs2) (mask_of ycs rs2)
                 (dt self) (nt self) tau (length rs2 - tau) = (kept1 ++ rest)%list).
  { unfold kept1, rest. rewrite E. unfold mask_of at 3 4.
    rewrite <- !firstn_map. fold (mask_of xcs rs2) (mask_of ycs rs2).
    apply kept_starts_prefix.
    - rewrite !length_firstn. unfold mask_of. rewrite !length_map. reflexivity.
    - exact Hdt.
    - unfold tau. lia.
    - unfold m1. rewrite E. rewrite !length_firstn. unfold mask_of.
      rewrite length_map. reflexivity.
    - unfold m1. lia. }
  assert (Hk1 : forall i, In i kept1 -> i < m1).
  { intros i Hi. unfold kept1, kept_starts in Hi.
    apply filter_In in Hi. destruct Hi as [Hi _]. apply in_seq in Hi. lia. }
  exists (map (window (table xcs rs1) (dt self) (nt self)) kept1),
         (map (target (table ycs rs1) tau) kept1),
         (map (window (table xcs rs2) (dt self) (nt self)) rest),
         (map (target (table ycs rs2) tau) rest).
  split; [apply (load_ok self xcs ycs rowbeg (Some n) Hdt Hm)|].
  split; [|rewrite !length_map; split; reflexivity].
  rewrite (load_ok self xcs ycs rowbeg nrows2 Hdt Hm2).
  fold rs2 tau. rewrite Ek, !map_app.
  assert (Ew : map (window (table xcs rs2) (dt self) (nt self)) kept1
               = map (window (table xcs rs1) (dt self) (nt self)) kept1).
  { apply map_ext_in. intros i Hi. apply Hk1 in Hi.
    rewrite E. unfold table at 2. rewrite <- firstn_map. fold (table xcs rs2).
    symmetry. apply window_prefix. intros k Hk.
    unfold table. rewrite firstn_map, length_map, <- E.
    unfold m1, tau in *. nia. }
  assert (Et : map (target (table ycs rs2) tau) kept1
               = map (target (table ycs rs1) tau) kept1).
  { apply map_ext_in. intros i Hi. apply Hk1 in Hi.
    rewrite E. unfold table at 2. rewrite <- firstn_map. fold (table ycs rs2).
    symmetry. apply target_prefix.
    unfold table. rewrite firstn_map, length_map, <- E.
    unfold m1 in *. lia. }
  rewrite Ew, Et. reflexivity.
Qed.

Lemma load_longer_range_witness :
  exists X1 Y1 X2 Y2,
    load scenario_longer ["Bz"%string] ["Dst"%string] 0 (Some 4)
    = Ok (stack 1 X1, stack 1 Y1) /\
    load scenario_longer ["Bz"%string] ["Dst"%string] 0 None
    = Ok (stack 1 (X1 ++ X2), stack 1 (Y1 ++ Y2)).
Proof.
  assert (H1 : 1 <= dt scenario_longer) by (simpl; lia).
  assert (H2 : dt scenario_longer * nt scenario_longer + fcast scenario_longer
               < length (read_lines (filename scenario_longer) 0 (Some 4)))
    by (simpl; lia).
  assert (H3 : forall n2, @None nat = Some n2 -> 4 <= n2)
    by (intros n2 E; discriminate E).
  destruct (@load_longer_range scenario_longer [CBz] [CDst] 0 4 None H1 H2 H3)
    as [X1 [Y1 [X2 [Y2 [Ha [Hb _]]]]]].
  exists X1, Y1, X2, Y2. split; [exact Ha|exact Hb].
Defined.
